(** * simplelb: a round-robin HTTP load balancer (cmd/simplelb/lb.go)

    A shallow embedding of the routing core of [lb.go]: the backend record,
    the server pool with its atomic rotation cursor, the liveness prober,
    the request router [lb], the proxy error handler installed by [main],
    and the start-up sequence of [main] itself.

    Conventions.
    - Go's [uint64] and [int] are [Z] with the wrap-around written out.
    - A [*Backend] is the position of the backend in [serverPool.backends]:
      the slice is append-only and [main] appends a fresh pointer each time.
    - The package-level variable [serverPool] is the state threaded through
      the monad [M]; every externally visible effect is recorded as an
      [Event], in program order.
    - Each function runs to its end without interference from other
      goroutines; an atomic operation or an access under [b.mutex] is one
      event.
    - [log.Printf]/[fmt.Println] output is not recorded; [log.Fatal] is.
    - The standard library is taken at its interface: [net.DialTimeout] and
      [url.Parse] are parameters, [httputil.ReverseProxy.ServeHTTP] is an
      event whose failure re-enters [ErrorHandler]. *)

From Stdlib Require Import ZArith Lia.
From stdpp Require Import base numbers list strings.

Local Open Scope Z_scope.

(** ** Machine integers *)

Module Int.

Definition uint64_modulus : Z := 2 ^ 64.
Definition MaxInt : Z := 2 ^ 63 - 1.
Definition MinInt : Z := - 2 ^ 63.

Definition is_uint64 (x : Z) : Prop := 0 <= x < uint64_modulus.
Definition is_int (x : Z) : Prop := MinInt <= x <= MaxInt.

(** [x + y] on [uint64]. *)
Definition uint64_add (x y : Z) : Z := (x + y) mod uint64_modulus.

(** Two's-complement reading of a 64-bit pattern: the conversion [int(x)]. *)
Definition to_int (x : Z) : Z :=
  let r := x mod uint64_modulus in
  if r <? 2 ^ 63 then r else r - uint64_modulus.

(** The conversion [uint64(x)]. *)
Definition to_uint64 (x : Z) : Z := x mod uint64_modulus.

(** [x + y] on [int]. *)
Definition int_add (x y : Z) : Z := to_int (x + y).

(** [x % y] on [uint64], for [y <> 0] (Go panics on [y = 0]). *)
Definition uint64_rem (x y : Z) : Z := x mod y.

(** [x % y] on [int], for [y <> 0]: the remainder takes the sign of [x]. *)
Definition int_rem (x y : Z) : Z := Z.rem x y.

End Int.

(** ** net/url, context, net/http: the parts the balancer touches *)

(** A parsed [url.URL], seen through the two observations the program makes:
    the [Host] field and the result of [String()]. *)
Record url_URL : Type := mkURL {
  URL_Host : string;
  URL_String : string
}.

(** Context keys and values are [interface{}] in Go.  The program's own keys
    are the [int] constants [Attempt] and [Retry]; keys installed by net/http
    have other dynamic types and never compare equal to them. *)
Inductive any : Type :=
| AInt (n : Z)
| AOther (tag : string).

Definition any_eqb (a b : any) : bool :=
  match a, b with
  | AInt m, AInt n => m =? n
  | AOther s, AOther t => if decide (s = t) then true else false
  | _, _ => false
  end.

(** [const ( Attempt int = iota; Retry )] *)
Definition Attempt : Z := 0.
Definition Retry : Z := 1.

Inductive Context : Type :=
| Background
| WithValue (parent : Context) (key val : any).

(** [ctx.Value(key)]: the innermost binding of [key], or nil. *)
Fixpoint Value (ctx : Context) (key : any) : option any :=
  match ctx with
  | Background => None
  | WithValue parent k v => if any_eqb k key then Some v else Value parent key
  end.

Record Request : Type := mkRequest {
  RemoteAddr : string;
  Path : string;
  Ctx : Context
}.

(** [r.WithContext(ctx)]: a shallow copy of [r] carrying [ctx]. *)
Definition WithContext (r : Request) (ctx : Context) : Request :=
  {| RemoteAddr := RemoteAddr r; Path := Path r; Ctx := ctx |}.

(** ** Backends and the server pool *)

(** A reverse proxy built by [httputil.NewSingleHostReverseProxy(serverUrl)].
    [rp_id] stands for the identity of the proxy object: the number of
    backends registered before it. *)
Record httputil_ReverseProxy : Type := mkProxy {
  rp_id : nat;
  rp_target : url_URL
}.

Record Backend : Type := mkBackend {
  URL : url_URL;
  Alive : bool;
  ReverseProxy : httputil_ReverseProxy
}.

Record ServerPool : Type := mkPool {
  backends : list Backend;
  currentIndex : Z
}.

(** [len(s.backends)], an [int]. *)
Definition len (s : ServerPool) : Z := Z.of_nat (length (backends s)).

(** ** Effects *)

Inductive Event : Type :=
| EvAtomicAdd (new : Z)
    (* atomic.AddUint64(&s.currentIndex, 1), returning [new] *)
| EvAtomicStore (v : Z)
    (* atomic.StoreUint64(&s.currentIndex, v) *)
| EvIsAlive (idx : nat) (alive : bool)
    (* s.backends[idx].IsAlive(), returning [alive] *)
| EvSetAlive (idx : nat) (alive : bool)
    (* s.backends[idx].SetAlive(alive) *)
| EvDial (host : string) (timeout_s : Z) (ok : bool)
    (* net.DialTimeout("tcp", host, timeout_s * time.Second); [ok] iff err == nil *)
| EvTick
    (* a receive from the health-check ticker's channel *)
| EvSleep (ms : Z)
    (* <-time.After(ms * time.Millisecond) *)
| EvHttpError (msg : string) (code : Z)
    (* http.Error(w, msg, code) *)
| EvServeHTTP (p : httputil_ReverseProxy) (r : Request).
    (* p.ServeHTTP(w, r) *)

(** The mutable world: the global [serverPool] and the number of dials made
    so far (the index into the network's answers). *)
Record World : Type := mkWorld {
  serverPool : ServerPool;
  dials : nat
}.

(** The result of running a piece of code: a value and the world after, or a
    run-time panic. *)
Inductive Outcome (A : Type) : Type :=
| Ok (a : A) (w : World)
| Panic (msg : string).
Arguments Ok {A} a w.
Arguments Panic {A} msg.

Definition M (A : Type) : Type := World -> list Event * Outcome A.

Definition ret {A} (a : A) : M A := fun w => ([], Ok a w).

Definition bind {A B} (m : M A) (k : A -> M B) : M B :=
  fun w =>
    match m w with
    | (t, Ok a w') => let '(t', o) := k a w' in (t ++ t', o)
    | (t, Panic msg) => (t, Panic msg)
    end.

Notation "x <- m ;; k" := (bind m (fun x => k))
  (at level 100, m at next level, right associativity).
Notation "m ;; k" := (bind m (fun _ => k))
  (at level 100, right associativity).

Definition emit (e : Event) : M unit := fun w => ([e], Ok tt w).
Definition panic {A} (msg : string) : M A := fun _ => ([], Panic msg).
Definition get_pool : M ServerPool := fun w => ([], Ok (serverPool w) w).
Definition put_pool (s : ServerPool) : M unit :=
  fun w => ([], Ok tt {| serverPool := s; dials := dials w |}).

(** ** Backend methods *)

Definition with_Alive (b : Backend) (alive : bool) : Backend :=
  {| URL := URL b; Alive := alive; ReverseProxy := ReverseProxy b |}.

(** [s.backends[idx]]: a slice index, panicking out of range. *)
Definition backend_at (idx : Z) : M (nat * Backend) :=
  s <- get_pool ;;
  if idx <? 0 then panic "index out of range"
  else match backends s !! Z.to_nat idx with
       | Some b => ret (Z.to_nat idx, b)
       | None => panic "index out of range"
       end.

(** [func (b *Backend) SetAlive(alive bool)], on the backend at [idx]:
    the write happens under [b.mutex.Lock()]. *)
Definition SetAlive (idx : nat) (alive : bool) : M unit :=
  s <- get_pool ;;
  match backends s !! idx with
  | Some b =>
      put_pool {| backends := <[idx := with_Alive b alive]> (backends s);
                  currentIndex := currentIndex s |} ;;
      emit (EvSetAlive idx alive)
  | None => panic "nil pointer dereference"
  end.

(** [func (b *Backend) IsAlive() (alive bool)], on the backend at [idx]:
    the read happens under [b.mutex.RLock()]. *)
Definition IsAlive (idx : nat) : M bool :=
  s <- get_pool ;;
  match backends s !! idx with
  | Some b => emit (EvIsAlive idx (Alive b)) ;; ret (Alive b)
  | None => panic "nil pointer dereference"
  end.

(** ** Server pool methods *)

(** [func (s *ServerPool) AddBackend(backend *Backend)] *)
Definition AddBackend (backend : Backend) (s : ServerPool) : ServerPool :=
  {| backends := backends s ++ [backend]; currentIndex := currentIndex s |}.

(** [atomic.AddUint64(&s.currentIndex, delta)] *)
Definition atomic_AddUint64 (delta : Z) : M Z :=
  s <- get_pool ;;
  let new := Int.uint64_add (currentIndex s) delta in
  put_pool {| backends := backends s; currentIndex := new |} ;;
  emit (EvAtomicAdd new) ;;
  ret new.

(** [atomic.StoreUint64(&s.currentIndex, v)] *)
Definition atomic_StoreUint64 (v : Z) : M unit :=
  s <- get_pool ;;
  put_pool {| backends := backends s; currentIndex := v |} ;;
  emit (EvAtomicStore v).

(** [func (s *ServerPool) NextIndex() int] *)
Definition NextIndex : M Z :=
  new <- atomic_AddUint64 (Int.to_uint64 1) ;;
  s <- get_pool ;;
  let n := Int.to_uint64 (len s) in
  if n =? 0 then panic "integer divide by zero"
  else ret (Int.to_int (Int.uint64_rem new n)).

(** [func (s *ServerPool) MarkBackendStatus(backendUrl *url.URL, alive bool)]:
    the [range] loop over [s.backends], from position [idx] on. *)
Fixpoint MarkBackendStatus_range (bs : list Backend) (idx : nat)
    (backendUrl : url_URL) (alive : bool) : M unit :=
  match bs with
  | [] => ret tt
  | b :: rest =>
      if String.eqb (URL_String (URL b)) (URL_String backendUrl)
      then SetAlive idx alive (* return *)
      else MarkBackendStatus_range rest (S idx) backendUrl alive
  end.

Definition MarkBackendStatus (backendUrl : url_URL) (alive : bool) : M unit :=
  s <- get_pool ;;
  MarkBackendStatus_range (backends s) 0 backendUrl alive.

(** The loop [for i := next; i < limit; i++] of [GetNextPeer], with [n]
    iterations left. *)
Fixpoint GetNextPeer_for (n : nat) (i next : Z) : M (option nat) :=
  match n with
  | O => ret None
  | S n' =>
      s <- get_pool ;;
      let idx := Int.int_rem i (len s) in
      pb <- backend_at idx ;;
      alive <- IsAlive (fst pb) ;;
      if alive then
        (if negb (i =? next)
         then atomic_StoreUint64 (Int.to_uint64 idx)
         else ret tt) ;;
        ret (Some (fst pb))
      else GetNextPeer_for n' (Int.int_add i 1) next
  end.

(** [func (s *ServerPool) GetNextPeer() *Backend]; [None] is [nil]. *)
Definition GetNextPeer : M (option nat) :=
  next <- NextIndex ;;
  s <- get_pool ;;
  let limit := Int.int_add next (len s) in
  GetNextPeer_for (Z.to_nat (limit - next)) next next.

(** ** The liveness prober *)

Section Prober.

(** The network: [net_DialTimeout k host t] tells whether the [k]-th dial
    of the run, made to [host] with timeout [t] seconds, connects. *)
Variable net_DialTimeout : nat -> string -> Z -> bool.

Definition DialTimeout (host : string) (timeout_s : Z) : M bool :=
  fun w =>
    let ok := net_DialTimeout (dials w) host timeout_s in
    ([EvDial host timeout_s ok],
     Ok ok {| serverPool := serverPool w; dials := S (dials w) |}).

(** [func isBackendAlive(url *url.URL) bool] *)
Definition isBackendAlive (url : url_URL) : M bool :=
  let timeout := 2 in
  ok <- DialTimeout (URL_Host url) timeout ;;
  if ok then ret true (* after conn.Close() *)
  else ret false.

(** [func (s *ServerPool) HealthCheck()]: the [range] loop over
    [s.backends], from position [idx] on. *)
Fixpoint HealthCheck_range (bs : list Backend) (idx : nat) : M unit :=
  match bs with
  | [] => ret tt
  | b :: rest =>
      up <- isBackendAlive (URL b) ;;
      (if up then SetAlive idx true else SetAlive idx false) ;;
      HealthCheck_range rest (S idx)
  end.

Definition HealthCheck : M unit :=
  s <- get_pool ;;
  HealthCheck_range (backends s) 0.

(** The body of [for { select { case <-t.C: ... } }], [ticks] times. *)
Fixpoint healthCheck_ticks (ticks : nat) : M unit :=
  match ticks with
  | O => ret tt
  | S n => emit EvTick ;; HealthCheck ;; healthCheck_ticks n
  end.

(** [func healthCheck()], observed up to and including its [ticks]-th
    tick: the function itself never returns. *)
Definition healthCheck (ticks : nat) : M unit :=
  HealthCheck ;; (* First is forced call *)
  healthCheck_ticks ticks.

End Prober.

(** ** The request router and the proxy error handler *)

(** [func GetRetryFromContext(r *http.Request) int] *)
Definition GetRetryFromContext (r : Request) : Z :=
  match Value (Ctx r) (AInt Retry) with
  | Some (AInt retry) => retry
  | _ => 0
  end.

(** [func GetAttemptsFromContext(r *http.Request) int] *)
Definition GetAttemptsFromContext (r : Request) : Z :=
  match Value (Ctx r) (AInt Attempt) with
  | Some (AInt attempt) => attempt
  | _ => 0
  end.

Definition StatusServiceUnavailable : Z := 503.

(** [func lb(w http.ResponseWriter, r *http.Request)] *)
Definition lb (r : Request) : M unit :=
  let attempts := GetAttemptsFromContext r in
  if attempts >? 3 then
    emit (EvHttpError "Service not available" StatusServiceUnavailable)
  else
    peer <- GetNextPeer ;;
    match peer with
    | Some p =>
        s <- get_pool ;;
        match backends s !! p with
        | Some b => emit (EvServeHTTP (ReverseProxy b) r)
        | None => panic "nil pointer dereference"
        end
    | None =>
        emit (EvHttpError "Service Not Available" StatusServiceUnavailable)
    end.

(** The closure assigned to [proxy.ErrorHandler] in [main]; [serverUrl] and
    [proxy] are the variables it captures. *)
Definition ErrorHandler (serverUrl : url_URL) (proxy : httputil_ReverseProxy)
    (r : Request) : M unit :=
  let retries := GetRetryFromContext r in
  if retries >? 3 then
    emit (EvSleep 10) ;;
    let ctx := WithValue (Ctx r) (AInt Retry) (AInt (Int.int_add retries 1)) in
    emit (EvServeHTTP proxy (WithContext r ctx))
  else
    (* After 3 retries mark backend down *)
    MarkBackendStatus serverUrl false ;;
    let attempts := GetAttemptsFromContext r in
    let ctx := WithValue (Ctx r) (AInt Attempt) (AInt (Int.int_add attempts 1)) in
    lb (WithContext r ctx).

(** ** The forwarding layer *)

(** [p.ErrorHandler] as [main] installs it: the closure captured the proxy
    itself and the URL the proxy was built from. *)
Definition proxy_ErrorHandler (p : httputil_ReverseProxy) (r : Request) : M unit :=
  ErrorHandler (rp_target p) p r.

(** The call a run ended with, when that call was [p.ServeHTTP(w, r)]. *)
Definition forwarded (t : list Event) : option (httputil_ReverseProxy * Request) :=
  match last t with
  | Some (EvServeHTTP p r) => Some (p, r)
  | _ => None
  end.

(** What becomes of a run that ended by handing the request to a proxy:
    [fails k] tells whether the [k]-th delivery of the request fails, and a
    proxy whose delivery fails calls its [ErrorHandler], whose own run is
    continued in the same way.  [fuel] bounds the failures followed. *)
Fixpoint deliver (fuel : nat) (fails : nat -> bool) (k : nat)
    (x : list Event * Outcome unit) : list Event * Outcome unit :=
  match fuel with
  | O => x
  | S fuel' =>
      match snd x, forwarded (fst x) with
      | Ok _ w, Some (p, r) =>
          if fails k then
            let y := deliver fuel' fails (S k) (proxy_ErrorHandler p r w) in
            (fst x ++ fst y, snd y)
          else x
      | _, _ => x
      end
  end.

(** An inbound request, from [lb] to the last thing done for it. *)
Definition serve (fuel : nat) (fails : nat -> bool) (r : Request) : M unit :=
  fun w => deliver fuel fails 0 (lb r w).

(** ** Start-up *)

(** [strings.Split(s, sep)] for a one-character separator. *)
Fixpoint strings_Split (s : string) (sep : Ascii.ascii) : list string :=
  match s with
  | EmptyString => [EmptyString]
  | String c s' =>
      if Ascii.eqb c sep then EmptyString :: strings_Split s' sep
      else match strings_Split s' sep with
           | tok :: toks => String c tok :: toks
           | [] => [String c EmptyString]
           end
  end.

Definition comma : Ascii.ascii := Ascii.ascii_of_nat 44.

(** How [main] ends: [log.Fatal], or the call to [server.ListenAndServe()]
    after [go healthCheck()]; either way with the pool built so far. *)
Inductive Startup : Type :=
| Fatal (msg : string) (s : ServerPool)
| ListenAndServe (port : Z) (s : ServerPool).

Section Main.

(** [url.Parse]: the parsed URL, or the error's text. *)
Variable url_Parse : string -> url_URL + string.

(** [httputil.NewSingleHostReverseProxy(serverUrl)], created when [n]
    backends are registered. *)
Definition NewSingleHostReverseProxy (n : nat) (serverUrl : url_URL)
  : httputil_ReverseProxy :=
  {| rp_id := n; rp_target := serverUrl |}.

(** The loop [for _, tok := range urls] of [main]. *)
Fixpoint main_range (urls : list string) (s : ServerPool)
  : ServerPool + string * ServerPool :=
  match urls with
  | [] => inl s
  | tok :: rest =>
      match url_Parse tok with
      | inr err => inr (err, s)
      | inl serverUrl =>
          let proxy := NewSingleHostReverseProxy (length (backends s)) serverUrl in
          main_range rest
            (AddBackend {| URL := serverUrl; Alive := true; ReverseProxy := proxy |} s)
      end
  end.

(** The zero value of [var serverPool ServerPool]. *)
Definition serverPool_zero : ServerPool := {| backends := []; currentIndex := 0 |}.

(** [func main()], with the flags already parsed. *)
Definition main (serverList : string) (port : Z) : Startup :=
  if Z.of_nat (String.length serverList) =? 0 then
    Fatal "Please provide one or more backends to load balance" serverPool_zero
  else
    let urls := strings_Split serverList comma in
    match main_range urls serverPool_zero with
    | inr (err, s) => Fatal err s
    | inl s => ListenAndServe port s
    end.

End Main.

(** How the process ends, if it does: [log.Fatal] with the text it logs, or
    [main] returning; otherwise [server.ListenAndServe()] is still serving,
    on [port], the pool that was registered. *)
Inductive Exit : Type :=
| ExitFatal (msg : string)
| ExitReturn
| Serving (port : Z) (s : ServerPool).

Section MainExit.

Variable url_Parse : string -> url_URL + string.

(** [server.ListenAndServe()] on a port, seen from [main]: [None] while it
    has not returned, else the error it returned, [Some None] for [nil]. *)
Variable http_ListenAndServe : Z -> option (option string).

(** [func main()] to its last line: [main] up to the call of
    [ListenAndServe], then
    [if err := server.ListenAndServe(); err != nil { log.Fatal(err) }]. *)
Definition main_exit (serverList : string) (port : Z) : Exit :=
  match main url_Parse serverList port with
  | Fatal msg _ => ExitFatal msg
  | ListenAndServe port' s =>
      match http_ListenAndServe port' with
      | None => Serving port' s
      | Some None => ExitReturn
      | Some (Some err) => ExitFatal err
      end
  end.

End MainExit.

(** ** Vocabulary of the statements *)

(** The world [w] with the cursor overwritten. *)
Definition set_cursor (w : World) (c : Z) : World :=
  {| serverPool := {| backends := backends (serverPool w); currentIndex := c |};
     dials := dials w |}.

(** Typing invariants of the pool: the cursor is a [uint64]; the slice of
    pointers fits in memory, so [next + len(s.backends)] cannot overflow. *)
Definition wf_pool (s : ServerPool) : Prop :=
  Int.is_uint64 (currentIndex s) /\ 2 * len s <= Int.MaxInt.

(** [n] successive calls of [m], with their results in order. *)
Fixpoint times {A} (n : nat) (m : M A) : M (list A) :=
  match n with
  | O => ret []
  | S n' => a <- m ;; rest <- times n' m ;; ret (a :: rest)
  end.

(** The value a run returned, if it returned. *)
Definition returned {A} (x : list Event * Outcome A) : option A :=
  match snd x with
  | Ok a _ => Some a
  | Panic _ => None
  end.

(** The world a run ended in, if it returned. *)
Definition final {A} (x : list Event * Outcome A) : option World :=
  match snd x with
  | Ok _ w => Some w
  | Panic _ => None
  end.

(** A pool of three backends, the first one dead, used to run the code on
    concrete inputs. *)
Module Demo.

Definition url (host : string) : url_URL :=
  {| URL_Host := host; URL_String := String.append "http://" host |}.

Definition backend (n : nat) (host : string) (alive : bool) : Backend :=
  {| URL := url host; Alive := alive;
     ReverseProxy := {| rp_id := n; rp_target := url host |} |}.

Definition A : Backend := backend 0 "a:3031" false.
Definition B : Backend := backend 1 "b:3032" true.
Definition C : Backend := backend 2 "c:3033" true.

Definition world (bs : list Backend) (c : Z) : World :=
  {| serverPool := {| backends := bs; currentIndex := c |}; dials := 0 |}.

(** A stand-in for [url.Parse] that accepts every token as a host. *)
Definition parse (tok : string) : url_URL + string := inl (url tok).

(** A request as the listener hands it to [lb]: no counters attached. *)
Definition fresh : Request :=
  {| RemoteAddr := "10.0.0.7:51234"; Path := "/ping"; Ctx := Background |}.

(** The same request carrying [retries] under the key [Retry]. *)
Definition retried (retries : Z) : Request :=
  WithContext fresh (WithValue Background (AInt Retry) (AInt retries)).

(** [retried old] once more through the retry branch, now carrying [new]. *)
Definition retried2 (old new : Z) : Request :=
  WithContext fresh
    (WithValue (WithValue Background (AInt Retry) (AInt old))
               (AInt Retry) (AInt new)).

(** The same request carrying [attempts] under the key [Attempt]. *)
Definition attempted (attempts : Z) : Request :=
  WithContext fresh (WithValue Background (AInt Attempt) (AInt attempts)).

End Demo.

(** The alive flag of the backend at position [i], if there is one. *)
Definition alive_at (s : ServerPool) (i : nat) : option bool :=
  Alive <$> backends s !! i.

(** The position [k] slots after [start] in the rotation. *)
Definition rot (s : ServerPool) (start : Z) (k : nat) : nat :=
  Z.to_nat ((start + Z.of_nat k) mod len s).

(** The [IsAlive] reads that find the first [k] slots from [start] dead. *)
Definition dead_reads (s : ServerPool) (start : Z) (k : nat) : list Event :=
  map (fun j => EvIsAlive (rot s start j) false) (seq 0 k).

(** What a scan of [n] slots from [i] does when the first alive slot is [k]
    slots on: it stores the position found unless that is where [next]
    pointed. *)
Definition scan_found (w : World) (n : nat) (i next : Z) (k : nat) : Prop :=
  let s := serverPool w in
  (k < n)%nat
  /\ alive_at s (rot s i k) = Some true
  /\ (forall j, (j < k)%nat -> alive_at s (rot s i j) = Some false)
  /\ GetNextPeer_for n i next w
     = (dead_reads s i k ++ EvIsAlive (rot s i k) true
          :: (if i + Z.of_nat k =? next then []
              else [EvAtomicStore (Z.of_nat (rot s i k))]),
        Ok (Some (rot s i k))
           (if i + Z.of_nat k =? next then w
            else set_cursor w (Z.of_nat (rot s i k)))).

(** What a scan of [n] slots from [i] does when all of them are dead. *)
Definition scan_all_dead (w : World) (n : nat) (i next : Z) : Prop :=
  let s := serverPool w in
  (forall j, (j < n)%nat -> alive_at s (rot s i j) = Some false)
  /\ GetNextPeer_for n i next w = (dead_reads s i n, Ok None w).

(** Whether an event is an increment of the cursor, the mark of a call to
    [NextIndex]. *)
Definition is_AtomicAdd (e : Event) : bool :=
  match e with EvAtomicAdd _ => true | _ => false end.

(** The positions whose alive flag a run read, in order. *)
Definition alive_reads (t : list Event) : list nat :=
  omap (fun e => match e with EvIsAlive i _ => Some i | _ => None end) t.

(** The world [w] with the slice of backends replaced. *)
Definition set_backends (w : World) (bs : list Backend) : World :=
  {| serverPool := {| backends := bs; currentIndex := currentIndex (serverPool w) |};
     dials := dials w |}.

(** Whether the URL of [b] prints as [u] does. *)
Definition same_url (u : url_URL) (b : Backend) : Prop :=
  URL_String (URL b) = URL_String u.

(** The position of the first backend of [bs] whose URL prints as [u]. *)
Fixpoint find_url (bs : list Backend) (u : url_URL) : option nat :=
  match bs with
  | [] => None
  | b :: rest =>
      if String.eqb (URL_String (URL b)) (URL_String u) then Some 0%nat
      else S <$> find_url rest u
  end.

(** Events on the pool itself: the cursor and the alive flags. *)
Definition is_pool_event (e : Event) : bool :=
  match e with
  | EvAtomicAdd _ | EvAtomicStore _ | EvIsAlive _ _ | EvSetAlive _ _ => true
  | _ => false
  end.

(** The request [ErrorHandler] passes to the same proxy when it retries. *)
Definition retry_request (r : Request) : Request :=
  WithContext r
    (WithValue (Ctx r) (AInt Retry) (AInt (Int.int_add (GetRetryFromContext r) 1))).

(** The request [ErrorHandler] passes to [lb] when it reroutes. *)
Definition reroute_request (r : Request) : Request :=
  WithContext r
    (WithValue (Ctx r) (AInt Attempt) (AInt (Int.int_add (GetAttemptsFromContext r) 1))).

(** The statement that rerouting resets the retries count. *)
Definition reroute_resets_retries : Prop :=
  forall serverUrl proxy r w t p r' o,
    GetRetryFromContext r <= 3 ->
    ErrorHandler serverUrl proxy r w = (t ++ [EvServeHTTP p r'], o) ->
    GetRetryFromContext r' = 0.

(** The two operations that touch the cursor. *)
Inductive PoolOp : Type := OpNextIndex | OpGetNextPeer.

(** One operation; its result is dropped, its events are kept. *)
Definition run_op (op : PoolOp) : M unit :=
  match op with
  | OpNextIndex => _ <- NextIndex ;; ret tt
  | OpGetNextPeer => _ <- GetNextPeer ;; ret tt
  end.

(** A schedule of operations, one after the other. *)
Fixpoint run_ops (ops : list PoolOp) : M unit :=
  match ops with
  | [] => ret tt
  | op :: rest => run_op op ;; run_ops rest
  end.

(** The cursor values a run read, in order: every read of the cursor is the
    result of an atomic increment. *)
Definition cursor_reads (t : list Event) : list Z :=
  omap (fun e => match e with EvAtomicAdd v => Some v | _ => None end) t.

(** Whether an event is a store into the cursor. *)
Definition is_AtomicStore (e : Event) : bool :=
  match e with EvAtomicStore _ => true | _ => false end.

(** Every element is greater than all the elements before it. *)
Definition strictly_increasing (l : list Z) : Prop :=
  forall i j x y, (i < j)%nat -> l !! i = Some x -> l !! j = Some y -> x < y.

(** The statement that the cursor only ever grows. *)
Definition cursor_monotone : Prop :=
  forall ops w,
    wf_pool (serverPool w) -> 1 <= len (serverPool w) ->
    strictly_increasing (cursor_reads (fst (run_ops ops w))).

(** The answer of the network to the [d]-th dial, made to backend [b] by
    [isBackendAlive]. *)
Definition verdict (net : nat -> string -> Z -> bool) (d : nat) (b : Backend) : bool :=
  net d (URL_Host (URL b)) 2.

(** What probing the backend at position [idx] with the [d]-th dial does. *)
Definition probe_events (net : nat -> string -> Z -> bool) (d idx : nat) (b : Backend)
  : list Event :=
  [EvDial (URL_Host (URL b)) 2 (verdict net d b); EvSetAlive idx (verdict net d b)].

(** Events of a request that never retries: no delay, and every request
    handed to a proxy carries retries 0 and at most 3 attempts. *)
Definition quiet (e : Event) : Prop :=
  match e with
  | EvSleep _ => False
  | EvServeHTTP _ r =>
      GetRetryFromContext r = 0 /\ 0 <= GetAttemptsFromContext r <= 3
  | _ => True
  end.

(** A run all of whose events are quiet and which, if it ended by handing a
    request to a proxy, handed one with at least [a] attempts. *)
Definition run_ok (a : Z) (x : list Event * Outcome unit) : Prop :=
  Forall quiet (fst x)
  /\ (forall p r, forwarded (fst x) = Some (p, r) ->
        GetRetryFromContext r = 0 /\ 0 <= GetAttemptsFromContext r <= 3
        /\ a <= GetAttemptsFromContext r).

(** What start-up fixes about the pool: the URL and the proxy of each
    backend, in registration order. *)
Definition registry (w : World) : list (url_URL * httputil_ReverseProxy) :=
  map (fun b => (URL b, ReverseProxy b)) (backends (serverPool w)).

(** A pool the server can run on: well-typed and not empty. *)
Definition ready (w : World) : Prop :=
  wf_pool (serverPool w) /\ 1 <= len (serverPool w).

(** The things that happen to the pool while the server runs. *)
Inductive Action : Type :=
| ANextIndex
| AGetNextPeer
| AMarkBackendStatus (backendUrl : url_URL) (alive : bool)
| AHealthCheck
| ALb (r : Request)
| AErrorHandler (serverUrl : url_URL) (proxy : httputil_ReverseProxy) (r : Request).

(** One action, with the network it meets; its result is dropped. *)
Definition perform (net : nat -> string -> Z -> bool) (a : Action) : M unit :=
  match a with
  | ANextIndex => _ <- NextIndex ;; ret tt
  | AGetNextPeer => _ <- GetNextPeer ;; ret tt
  | AMarkBackendStatus backendUrl alive => MarkBackendStatus backendUrl alive
  | AHealthCheck => HealthCheck net
  | ALb r => lb r
  | AErrorHandler serverUrl proxy r => ErrorHandler serverUrl proxy r
  end.

(** Actions one after the other. *)
Fixpoint perform_all (net : nat -> string -> Z -> bool) (l : list Action) : M unit :=
  match l with
  | [] => ret tt
  | a :: rest => perform net a ;; perform_all net rest
  end.

(** The backend [main] registers for the parsed URL [u] when [n + i]
    backends are registered already. *)
Definition registered (n i : nat) (u : url_URL) : Backend :=
  {| URL := u; Alive := true;
     ReverseProxy := {| rp_id := n + i; rp_target := u |} |}.

(** [strings.Count(s, sep)] for a one-character separator. *)
Fixpoint strings_Count (s : string) (sep : Ascii.ascii) : nat :=
  match s with
  | EmptyString => 0
  | String c s' => (if Ascii.eqb c sep then 1 else 0) + strings_Count s' sep
  end.

(** A stand-in for [url.Parse] that rejects the empty token. *)
Definition strict_parse (tok : string) : url_URL + string :=
  match tok with
  | EmptyString => inr "empty url"
  | _ => inl (Demo.url tok)
  end.

(** How many ticks of the ticker, and how many dials, a run saw. *)
Definition ticks_in (t : list Event) : nat :=
  length (omap (fun e => match e with EvTick => Some tt | _ => None end) t).

Definition dials_in (t : list Event) : nat :=
  length (omap (fun e => match e with EvDial _ _ _ => Some tt | _ => None end) t).

(** How many times a run handed the request to a proxy. *)
Definition serves_in (t : list Event) : nat :=
  length (omap (fun e => match e with EvServeHTTP _ _ => Some tt | _ => None end) t).

(** A run that returned on a ready pool and whose last step was the 503
    answer or the only hand-over of the request to a proxy. *)
Definition settled (x : list Event * Outcome unit) : Prop :=
  exists t e w',
    x = (t ++ [e], Ok tt w') /\ ready w'
    /\ ((exists msg, e = EvHttpError msg StatusServiceUnavailable
                     /\ serves_in (t ++ [e]) = 0%nat)
        \/ (exists p r, e = EvServeHTTP p r /\ serves_in (t ++ [e]) = 1%nat)).

(** How many times a run waited before a same-peer retry. *)
Definition sleeps_in (t : list Event) : nat :=
  length (omap (fun e => match e with EvSleep _ => Some tt | _ => None end) t).

(** Events of a run that only retries on proxy [p]: the fixed delay and
    hand-overs to [p], nothing on the pool and no response. *)
Definition retry_only (p : httputil_ReverseProxy) (e : Event) : Prop :=
  match e with
  | EvSleep ms => ms = 10
  | EvServeHTTP p' _ => p' = p
  | _ => False
  end.

(** The statement that the handler's reroute branch marks dead the peer it
    belongs to: the backend at position [i] of the pool [main] built, whose
    handler closes over that backend's URL and proxy. *)
Definition reroute_marks_current_peer : Prop :=
  forall (url_Parse : string -> url_URL + string) (serverList : string) (port : Z)
         (s : ServerPool) (i : nat) (b : Backend) (r : Request),
    main url_Parse serverList port = ListenAndServe port s ->
    backends s !! i = Some b ->
    GetRetryFromContext r <= 3 ->
    exists t1 w1,
      MarkBackendStatus (URL b) false {| serverPool := s; dials := 0 |} = (t1, Ok tt w1)
      /\ alive_at (serverPool w1) i = Some false
      /\ ErrorHandler (URL b) (ReverseProxy b) r {| serverPool := s; dials := 0 |}
         = (t1 ++ fst (lb (reroute_request r) w1), snd (lb (reroute_request r) w1)).


(** * Properties *)

(** ** Machine integers *)

Module IntFacts.
Import Int.

Lemma modulus_eq : uint64_modulus = 18446744073709551616.
Proof. reflexivity. Qed.

Lemma MaxInt_eq : MaxInt = 9223372036854775807.
Proof. reflexivity. Qed.

Lemma MinInt_eq : MinInt = -9223372036854775808.
Proof. reflexivity. Qed.

Lemma to_uint64_small x : is_uint64 x -> to_uint64 x = x.
Proof. unfold is_uint64, to_uint64. intros H. apply Z.mod_small. exact H. Qed.

Lemma to_int_small x : is_int x -> to_int x = x.
Proof.
  unfold is_int, to_int. rewrite MinInt_eq, MaxInt_eq, modulus_eq. intros H.
  destruct (Z_lt_le_dec x 0) as [Hneg | Hpos].
  - replace (x mod 18446744073709551616) with (x + 18446744073709551616).
    + destruct (Z.ltb_spec (x + 18446744073709551616) (2 ^ 63)); lia.
    + apply Z.mod_unique with (q := -1); lia.
  - rewrite Z.mod_small by lia.
    destruct (Z.ltb_spec x (2 ^ 63)); lia.
Qed.

Lemma uint64_add_range x y : is_uint64 (uint64_add x y).
Proof.
  unfold is_uint64, uint64_add. apply Z.mod_pos_bound.
  rewrite modulus_eq. lia.
Qed.

Lemma uint64_add_small x y :
  0 <= x + y < uint64_modulus -> uint64_add x y = x + y.
Proof. unfold uint64_add. apply Z.mod_small. Qed.

Lemma int_add_small x y : is_int (x + y) -> int_add x y = x + y.
Proof. unfold int_add. apply to_int_small. Qed.

Lemma int_add_MaxInt : int_add MaxInt 1 = MinInt.
Proof. reflexivity. Qed.

Lemma int_rem_nonneg x y : 0 <= x -> 0 < y -> int_rem x y = x mod y.
Proof. unfold int_rem. intros. apply Z.rem_mod_nonneg; lia. Qed.

End IntFacts.

(** ** Running monadic code *)

Lemma bind_get_pool {B} (k : ServerPool -> M B) w :
  bind get_pool k w = k (serverPool w) w.
Proof. unfold bind, get_pool. destruct (k (serverPool w) w). reflexivity. Qed.

Lemma set_cursor_same w : set_cursor w (currentIndex (serverPool w)) = w.
Proof. destruct w as [[bs c] d]. reflexivity. Qed.

Lemma wf_set_cursor w c :
  wf_pool (serverPool w) -> Int.is_uint64 c -> wf_pool (serverPool (set_cursor w c)).
Proof. unfold wf_pool, len. cbn. tauto. Qed.

(** ** NextIndex *)

Lemma NextIndex_run w :
  wf_pool (serverPool w) -> 1 <= len (serverPool w) ->
  let c' := Int.uint64_add (currentIndex (serverPool w)) 1 in
  NextIndex w = ([EvAtomicAdd c'], Ok (c' mod len (serverPool w)) (set_cursor w c')).
Proof.
  destruct w as [[bs c] d]. unfold wf_pool, len, set_cursor. cbn [serverPool backends currentIndex dials].
  intros [Hc Hl] Hlen. set (c' := Int.uint64_add c 1).
  pose proof IntFacts.MaxInt_eq as HM. pose proof IntFacts.modulus_eq as Hm.
  pose proof IntFacts.MinInt_eq as Hmin.
  unfold NextIndex, atomic_AddUint64.
  rewrite IntFacts.to_uint64_small by (unfold Int.is_uint64; lia).
  unfold bind, get_pool, put_pool, emit, ret, len.
  cbn [serverPool backends currentIndex dials]. fold c'.
  rewrite IntFacts.to_uint64_small by (unfold Int.is_uint64; lia).
  destruct (Z.eqb_spec (Z.of_nat (length bs)) 0) as [H0 | _]; [lia |].
  cbn [app]. unfold Int.uint64_rem.
  rewrite IntFacts.to_int_small; [reflexivity |].
  pose proof (Z.mod_pos_bound c' (Z.of_nat (length bs)) ltac:(lia)).
  unfold Int.is_int. lia.
Qed.

Lemma times_S {A} (m : M A) n w t a w1 t' l w2 :
  m w = (t, Ok a w1) -> times n m w1 = (t', Ok l w2) ->
  times (S n) m w = (t ++ t', Ok (a :: l) w2).
Proof.
  intros Hm Hn. cbn [times]. unfold bind at 1. rewrite Hm.
  unfold bind. rewrite Hn. unfold ret. cbn. rewrite app_nil_r. reflexivity.
Qed.

(** The cursor values read by [n] successive increments starting from [c]. *)
Lemma cursors_shift c n :
  map (fun k => (Int.uint64_add c 1 + Z.of_nat k) mod Int.uint64_modulus) (seq 1 n)
  = map (fun k => (c + Z.of_nat k) mod Int.uint64_modulus) (seq 2 n).
Proof.
  rewrite <- (fmap_S_seq 1). rewrite <- list_fmap_compose.
  apply list_fmap_ext. intros _ k _. cbn [compose].
  unfold Int.uint64_add. rewrite Zplus_mod_idemp_l. f_equal. lia.
Qed.

Lemma NextIndex_times w n :
  wf_pool (serverPool w) -> 1 <= len (serverPool w) ->
  let c := currentIndex (serverPool w) in
  let cursors := map (fun k => (c + Z.of_nat k) mod Int.uint64_modulus) (seq 1 n) in
  times n NextIndex w
  = (map EvAtomicAdd cursors,
     Ok (map (fun v => v mod len (serverPool w)) cursors)
        (set_cursor w ((c + Z.of_nat n) mod Int.uint64_modulus))).
Proof.
  revert w. induction n as [| n IH]; intros w Hwf Hlen c cursors.
  - cbn. unfold ret. subst c. rewrite Z.add_0_r, Z.mod_small by apply Hwf.
    rewrite set_cursor_same. reflexivity.
  - pose proof (NextIndex_run w Hwf Hlen) as H1. cbn zeta in H1.
    assert (Hwf1 : wf_pool (serverPool (set_cursor w (Int.uint64_add c 1)))).
    { apply wf_set_cursor; [exact Hwf | apply IntFacts.uint64_add_range]. }
    specialize (IH (set_cursor w (Int.uint64_add c 1)) Hwf1 Hlen). cbn zeta in IH.
    rewrite (times_S _ _ _ _ _ _ _ _ _ H1 IH).
    subst cursors. cbn [seq map serverPool set_cursor currentIndex].
    rewrite cursors_shift. unfold set_cursor. cbn [serverPool backends dials currentIndex].
    fold c. unfold len. cbn [backends].
    replace ((Int.uint64_add c 1 + Z.of_nat n) mod Int.uint64_modulus)
      with ((c + Z.of_nat (S n)) mod Int.uint64_modulus).
    + reflexivity.
    + unfold Int.uint64_add. rewrite Zplus_mod_idemp_l. f_equal. lia.
Qed.

(** C7.  In a pool with at least one backend, each call to [NextIndex]
    atomically adds 1 to the shared [uint64] cursor (wrapping modulo 2^64)
    and returns the new cursor value modulo [len(backends)].  Hence [n]
    successive calls from cursor [c] return [(c+1) mod len], [(c+2) mod len],
    ... (each cursor value taken modulo 2^64 first), leave every backend as it
    was, and return the same indices in any pool of the same length and
    cursor, whatever its alive flags. *)
Theorem NextIndex_round_robin (w : World) (n : nat) :
  wf_pool (serverPool w) -> 1 <= len (serverPool w) ->
  let c := currentIndex (serverPool w) in
  let l := len (serverPool w) in
  let cursor k := (c + Z.of_nat k) mod Int.uint64_modulus in
  NextIndex w
    = ([EvAtomicAdd (cursor 1%nat)],
       Ok (cursor 1%nat mod l) (set_cursor w (cursor 1%nat)))
  /\ times n NextIndex w
    = (map (fun k => EvAtomicAdd (cursor k)) (seq 1 n),
       Ok (map (fun k => cursor k mod l) (seq 1 n)) (set_cursor w (cursor n)))
  /\ (c + Z.of_nat n < Int.uint64_modulus ->
      returned (times n NextIndex w)
        = Some (map (fun k => (c + Z.of_nat k) mod l) (seq 1 n)))
  /\ (forall w' : World,
        wf_pool (serverPool w') ->
        length (backends (serverPool w')) = length (backends (serverPool w)) ->
        currentIndex (serverPool w') = c ->
        returned (times n NextIndex w') = returned (times n NextIndex w)).
Proof.
  intros Hwf Hlen c l cursor.
  assert (Htimes : forall w0, wf_pool (serverPool w0) -> 1 <= len (serverPool w0) ->
    times n NextIndex w0
    = (map (fun k => EvAtomicAdd ((currentIndex (serverPool w0) + Z.of_nat k)
                                   mod Int.uint64_modulus)) (seq 1 n),
       Ok (map (fun k => ((currentIndex (serverPool w0) + Z.of_nat k)
                            mod Int.uint64_modulus) mod len (serverPool w0)) (seq 1 n))
          (set_cursor w0 ((currentIndex (serverPool w0) + Z.of_nat n)
                            mod Int.uint64_modulus)))).
  { intros w0 Hwf0 Hlen0. rewrite (NextIndex_times w0 n Hwf0 Hlen0).
    cbn zeta. rewrite <- !list_fmap_compose. reflexivity. }
  split; [| split; [| split]].
  - exact (NextIndex_run w Hwf Hlen).
  - exact (Htimes w Hwf Hlen).
  - intros Hnowrap. rewrite (Htimes w Hwf Hlen). unfold returned. cbn [snd].
    f_equal. apply list_fmap_ext. intros i k Hk.
    apply lookup_seq in Hk as [-> Hi]. fold c l.
    rewrite (Z.mod_small (c + _)); [reflexivity |].
    destruct Hwf as [[Hc0 _] _]. fold c in Hc0. lia.
  - intros w' Hwf' Hsame Hcur.
    assert (Hlen' : len (serverPool w') = len (serverPool w)).
    { unfold len. rewrite Hsame. reflexivity. }
    rewrite (Htimes w Hwf Hlen), (Htimes w' Hwf') by (rewrite Hlen'; exact Hlen).
    unfold returned. cbn [snd]. rewrite Hlen', Hcur. reflexivity.
Qed.

Ltac concrete_wf :=
  unfold wf_pool, Int.is_uint64, len; cbn;
  rewrite ?IntFacts.MaxInt_eq, ?IntFacts.modulus_eq; lia.

Lemma NextIndex_round_robin_witness :
  times 4 NextIndex (Demo.world [Demo.A; Demo.B; Demo.C] 0)
  = ([EvAtomicAdd 1; EvAtomicAdd 2; EvAtomicAdd 3; EvAtomicAdd 4],
     Ok [1; 2; 0; 1] (Demo.world [Demo.A; Demo.B; Demo.C] 4)).
Proof.
  destruct (NextIndex_round_robin
              (Demo.world [Demo.A; Demo.B; Demo.C] 0) 4)
    as (_ & H & _ & _).
  - concrete_wf.
  - unfold len. cbn. lia.
  - rewrite H. reflexivity.
Defined.

(** ** GetNextPeer *)

Lemma rot_lt s start k : 1 <= len s -> (rot s start k < length (backends s))%nat.
Proof.
  intros Hlen. unfold rot.
  pose proof (Z.mod_pos_bound (start + Z.of_nat k) (len s) ltac:(lia)) as Hb.
  unfold len in *. lia.
Qed.

Lemma rot_succ s start k : rot s (start + 1) k = rot s start (S k).
Proof. unfold rot. f_equal. f_equal. lia. Qed.

Lemma dead_reads_S s start k :
  dead_reads s start (S k)
  = EvIsAlive (rot s start 0) false :: dead_reads s (start + 1) k.
Proof.
  unfold dead_reads. cbn [seq map]. f_equal.
  rewrite <- (fmap_S_seq 0), <- list_fmap_compose.
  apply list_fmap_ext. intros _ j _. cbn [compose]. rewrite rot_succ. reflexivity.
Qed.

(** One iteration of the scan, at a slot holding backend [b]. *)
Lemma GetNextPeer_for_S n i next w b :
  let s := serverPool w in
  let p := rot s i 0 in
  0 <= i -> 1 <= len s -> 2 * len s <= Int.MaxInt ->
  backends s !! p = Some b ->
  GetNextPeer_for (S n) i next w
  = if Alive b then
      (EvIsAlive p true :: (if i =? next then [] else [EvAtomicStore (Z.of_nat p)]),
       Ok (Some p) (if i =? next then w else set_cursor w (Z.of_nat p)))
    else
      (EvIsAlive p false :: fst (GetNextPeer_for n (Int.int_add i 1) next w),
       snd (GetNextPeer_for n (Int.int_add i 1) next w)).
Proof.
  intros s p Hi Hlen Hmem Hb.
  assert (Hidx : Int.int_rem i (len s) = i mod len s)
    by (apply IntFacts.int_rem_nonneg; lia).
  pose proof (Z.mod_pos_bound i (len s) ltac:(lia)) as Hbound.
  assert (Hp : p = Z.to_nat (i mod len s)).
  { unfold p, rot. rewrite Z.add_0_r. reflexivity. }
  cbn [GetNextPeer_for]. rewrite bind_get_pool. fold s. rewrite Hidx.
  unfold backend_at. unfold bind at 1. rewrite bind_get_pool. fold s.
  destruct (Z.ltb_spec (i mod len s) 0) as [Hneg | _]; [lia |].
  rewrite <- Hp, Hb. unfold ret at 1. cbn [fst app].
  unfold IsAlive. unfold bind at 1. rewrite bind_get_pool. fold s. rewrite Hb.
  unfold bind at 1. unfold emit, ret at 1. cbn [app].
  destruct (Alive b).
  - assert (Hu : Int.to_uint64 (i mod len s) = Z.of_nat p).
    { rewrite IntFacts.to_uint64_small.
      - rewrite Hp. lia.
      - unfold Int.is_uint64. rewrite IntFacts.modulus_eq.
        rewrite IntFacts.MaxInt_eq in Hmem. lia. }
    rewrite Hu. destruct (i =? next); cbn [negb].
    + unfold bind, ret. cbn. reflexivity.
    + unfold atomic_StoreUint64, bind, get_pool, put_pool, emit, ret. cbn.
      reflexivity.
  - destruct (GetNextPeer_for n (Int.int_add i 1) next w) as [t o]. reflexivity.
Qed.

Lemma GetNextPeer_for_run n : forall i next w,
  0 <= i -> i + Z.of_nat n <= Int.MaxInt ->
  1 <= len (serverPool w) -> 2 * len (serverPool w) <= Int.MaxInt ->
  (exists k, scan_found w n i next k) \/ scan_all_dead w n i next.
Proof.
  induction n as [| n IH]; intros i next w Hi Hfit Hlen Hmem.
  - right. split; [intros j Hj; lia | reflexivity].
  - set (s := serverPool w).
    destruct (lookup_lt_is_Some_2 (backends s) (rot s i 0) (rot_lt s i 0 Hlen))
      as [b Hb].
    pose proof (GetNextPeer_for_S n i next w b Hi Hlen Hmem Hb) as Hstep.
    cbn zeta in Hstep. fold s in Hstep.
    destruct (Alive b) eqn:Hal.
    + left. exists 0%nat. unfold scan_found. fold s. cbn zeta.
      split; [lia |]. split; [unfold alive_at; rewrite Hb, <- Hal; reflexivity |].
      split; [intros j Hj; lia |].
      rewrite Hstep. rewrite Z.add_0_r. reflexivity.
    + assert (Hadd : Int.int_add i 1 = i + 1).
      { apply IntFacts.int_add_small. unfold Int.is_int.
        rewrite IntFacts.MinInt_eq. lia. }
      rewrite Hadd in Hstep.
      assert (H0 : alive_at s (rot s i 0) = Some false).
      { unfold alive_at. rewrite Hb, <- Hal. reflexivity. }
      destruct (IH (i + 1) next w ltac:(lia) ltac:(lia) Hlen Hmem)
        as [[k (Hk & Hka & Hkd & Hrun)] | [Hd Hrun]];
        fold s in Hrun; try fold s in Hka, Hkd; try fold s in Hd.
      * left. exists (S k). unfold scan_found. fold s. cbn zeta.
        split; [lia |]. rewrite <- rot_succ. split; [exact Hka |].
        split.
        { intros [| j] Hj; [exact H0 |]. rewrite <- rot_succ. apply Hkd. lia. }
        rewrite Hstep, Hrun. cbn [fst snd]. rewrite dead_reads_S.
        replace (i + Z.of_nat (S k)) with (i + 1 + Z.of_nat k) by lia.
        reflexivity.
      * right. split.
        { intros [| j] Hj; [exact H0 |]. rewrite <- rot_succ. apply Hd. lia. }
        rewrite Hstep, Hrun. cbn [fst snd]. rewrite dead_reads_S. reflexivity.
Qed.

Lemma rot_onto s start p :
  1 <= len s -> (p < length (backends s))%nat ->
  exists j, (j < length (backends s))%nat /\ rot s start j = p.
Proof.
  intros Hlen Hp.
  pose proof (Z.mod_pos_bound (Z.of_nat p - start) (len s) ltac:(lia)) as Hb.
  exists (Z.to_nat ((Z.of_nat p - start) mod len s)). split.
  - unfold len in *. lia.
  - unfold rot. rewrite Z2Nat.id by lia.
    rewrite Zplus_mod_idemp_r.
    replace (start + (Z.of_nat p - start)) with (Z.of_nat p) by lia.
    rewrite Z.mod_small by (unfold len; lia). lia.
Qed.

(** The run of [GetNextPeer] in full: one [NextIndex], then the scan. *)
Lemma GetNextPeer_run w :
  wf_pool (serverPool w) -> 1 <= len (serverPool w) ->
  let s := serverPool w in
  let c' := Int.uint64_add (currentIndex s) 1 in
  let next := c' mod len s in
  let w1 := set_cursor w c' in
  let n := length (backends s) in
  (exists k,
      (k < n)%nat
      /\ alive_at s (rot s next k) = Some true
      /\ (forall j, (j < k)%nat -> alive_at s (rot s next j) = Some false)
      /\ GetNextPeer w
         = (EvAtomicAdd c' :: dead_reads s next k ++ EvIsAlive (rot s next k) true
              :: (if Nat.eqb k 0 then [] else [EvAtomicStore (Z.of_nat (rot s next k))]),
            Ok (Some (rot s next k))
               (if Nat.eqb k 0 then w1 else set_cursor w (Z.of_nat (rot s next k)))))
  \/ ((forall j, (j < n)%nat -> alive_at s (rot s next j) = Some false)
      /\ GetNextPeer w = (EvAtomicAdd c' :: dead_reads s next n, Ok None w1)).
Proof.
  intros Hwf Hlen s c' next w1 n.
  pose proof (NextIndex_run w Hwf Hlen) as HN. cbn zeta in HN.
  fold s c' next w1 in HN.
  destruct Hwf as [Hc Hmem]. fold s in Hc, Hmem, Hlen.
  pose proof (Z.mod_pos_bound c' (len s) ltac:(lia)) as Hnext. fold next in Hnext.
  pose proof IntFacts.MaxInt_eq as HM. pose proof IntFacts.MinInt_eq as Hmin.
  assert (Hlimit : Int.int_add next (len s) = next + len s).
  { apply IntFacts.int_add_small. unfold Int.is_int. lia. }
  assert (Hloop : forall o, GetNextPeer_for n next next w1 = o ->
            GetNextPeer w = (EvAtomicAdd c' :: fst o, snd o)).
  { intros o Ho. unfold GetNextPeer. unfold bind at 1. rewrite HN.
    rewrite bind_get_pool.
    change (len (serverPool w1)) with (len s). rewrite Hlimit.
    replace (Z.to_nat (next + len s - next)) with n by (unfold len, n; lia).
    rewrite Ho. destruct o. reflexivity. }
  destruct (GetNextPeer_for_run n next next w1) as [[k Hk] | Hd].
  - lia.
  - unfold len, n in *. lia.
  - exact Hlen.
  - exact Hmem.
  - left. exists k. destruct Hk as (Hkn & Hka & Hkd & Hrun).
    split; [exact Hkn |]. split; [exact Hka |]. split; [exact Hkd |].
    rewrite (Hloop _ Hrun). cbn [fst snd].
    change (serverPool w1) with (mkPool (backends s) c').
    destruct k as [| k].
    + rewrite Z.add_0_r, Z.eqb_refl. reflexivity.
    + destruct (Z.eqb_spec (next + Z.of_nat (S k)) next) as [Heq | _]; [lia |].
      reflexivity.
  - right. destruct Hd as [Hd Hrun]. split; [exact Hd |].
    rewrite (Hloop _ Hrun). reflexivity.
Qed.

Lemma alive_reads_dead_reads s start k :
  alive_reads (dead_reads s start k) = map (rot s start) (seq 0 k).
Proof.
  unfold alive_reads, dead_reads. induction (seq 0 k) as [| j l IH]; [reflexivity |].
  cbn. rewrite IH. reflexivity.
Qed.

Lemma dead_reads_no_add s start k :
  Forall (fun e => is_AtomicAdd e = false) (dead_reads s start k).
Proof. unfold dead_reads. apply Forall_fmap, Forall_true. reflexivity. Qed.

Lemma alive_at_true_elem s p :
  alive_at s p = Some true -> exists b, b ∈ backends s /\ Alive b = true.
Proof.
  unfold alive_at. destruct (backends s !! p) as [b |] eqn:Hb; [| discriminate].
  cbn. intros [= Hal]. exists b. split; [| exact Hal].
  apply list_elem_of_lookup. exists p. exact Hb.
Qed.

Lemma all_slots_dead s start :
  1 <= len s ->
  (forall j, (j < length (backends s))%nat -> alive_at s (rot s start j) = Some false) ->
  forall b, b ∈ backends s -> Alive b = false.
Proof.
  intros Hlen Hd b Hb. apply list_elem_of_lookup in Hb as [p Hp].
  destruct (rot_onto s start p Hlen (lookup_lt_Some _ _ _ Hp)) as (j & Hj & Hrot).
  specialize (Hd j Hj). rewrite Hrot in Hd. unfold alive_at in Hd.
  rewrite Hp in Hd. cbn in Hd. congruence.
Qed.

(** C2.  In a pool with at least one backend, [GetNextPeer] calls
    [NextIndex] exactly once to get its starting index, reads the alive
    flags of consecutive positions from there (wrapping modulo
    [len(backends)], at most [len(backends)] of them), and returns the first
    backend it finds alive; it returns nil when no backend of the pool is
    alive. *)
Theorem GetNextPeer_first_alive (w : World) :
  wf_pool (serverPool w) -> 1 <= len (serverPool w) ->
  let s := serverPool w in
  let c' := Int.uint64_add (currentIndex s) 1 in
  let next := c' mod len s in
  let n := length (backends s) in
  exists t r w',
    NextIndex w = ([EvAtomicAdd c'], Ok next (set_cursor w c'))
    /\ GetNextPeer w = (EvAtomicAdd c' :: t, Ok r w')
    /\ Forall (fun e => is_AtomicAdd e = false) t
    /\ backends (serverPool w') = backends s
    /\ match r with
       | Some p =>
           exists k, (k < n)%nat
             /\ p = rot s next k
             /\ alive_at s p = Some true
             /\ (forall j, (j < k)%nat -> alive_at s (rot s next j) = Some false)
             /\ alive_reads t = map (rot s next) (seq 0 (S k))
       | None =>
           (forall b, b ∈ backends s -> Alive b = false)
           /\ alive_reads t = map (rot s next) (seq 0 n)
       end
    /\ ((forall b, b ∈ backends s -> Alive b = false) -> r = None).
Proof.
  intros Hwf Hlen s c' next n.
  pose proof (NextIndex_run w Hwf Hlen) as HN. cbn zeta in HN.
  destruct (GetNextPeer_run w Hwf Hlen) as [[k (Hk & Hka & Hkd & Hrun)] | [Hd Hrun]];
    fold s c' next n in Hrun; fold s c' next in HN.
  - fold s c' next n in Hk, Hka, Hkd.
    eexists _, _, _. split; [exact HN |]. split; [exact Hrun |].
    split.
    { apply Forall_app. split; [apply dead_reads_no_add |].
      constructor; [reflexivity |]. destruct (Nat.eqb k 0); repeat constructor. }
    split; [destruct (Nat.eqb k 0); reflexivity |].
    split.
    + exists k. split; [exact Hk |]. split; [reflexivity |]. split; [exact Hka |].
      split; [exact Hkd |].
      unfold alive_reads. rewrite omap_app. fold (alive_reads (dead_reads s next k)).
      rewrite alive_reads_dead_reads. rewrite seq_S, map_app. f_equal.
      cbn. destruct (Nat.eqb k 0); reflexivity.
    + intros Hall. destruct (alive_at_true_elem _ _ Hka) as (b & Hb & Hal).
      rewrite (Hall b Hb) in Hal. discriminate.
  - fold s c' next n in Hd.
    eexists _, _, _. split; [exact HN |]. split; [exact Hrun |].
    split; [apply dead_reads_no_add |].
    split; [reflexivity |].
    split; [| reflexivity].
    split; [exact (all_slots_dead s next Hlen Hd) |].
    apply alive_reads_dead_reads.
Qed.

Lemma GetNextPeer_first_alive_witness :
  let w := Demo.world [Demo.A; Demo.B; Demo.C] 5 in
  wf_pool (serverPool w) /\ 1 <= len (serverPool w)
  /\ exists t w',
       GetNextPeer w = (EvAtomicAdd 6 :: t, Ok (Some 1%nat) w')
       /\ alive_reads t = [0%nat; 1%nat].
Proof.
  intros w.
  assert (Hwf : wf_pool (serverPool w)) by concrete_wf.
  assert (Hlen : 1 <= len (serverPool w)) by (unfold len; cbn; lia).
  split; [exact Hwf |]. split; [exact Hlen |].
  destruct (GetNextPeer_first_alive w Hwf Hlen)
    as (t & r & w' & _ & Hrun & _ & _ & Hr & _).
  exists t, w'.
  assert (Hc : GetNextPeer w
               = ([EvAtomicAdd 6; EvIsAlive 0 false; EvIsAlive 1 true; EvAtomicStore 1],
                  Ok (Some 1%nat) (set_cursor w 1))) by reflexivity.
  rewrite Hc in Hrun. inversion Hrun; subst t r w'.
  split; reflexivity.
Defined.

(** ** MarkBackendStatus *)


Lemma find_url_Some bs u i :
  find_url bs u = Some i <->
  (exists b, bs !! i = Some b /\ same_url u b)
  /\ (forall j b', (j < i)%nat -> bs !! j = Some b' -> ~ same_url u b').
Proof.
  unfold same_url. revert i. induction bs as [| b bs IH]; intros i; cbn.
  - split; [discriminate |]. intros [(b & Hb & _) _]. discriminate Hb.
  - destruct (String.eqb_spec (URL_String (URL b)) (URL_String u)) as [Heq | Hne].
    + split.
      * intros [= <-]. split; [exists b; split; [reflexivity | exact Heq] |].
        intros j b' Hj. lia.
      * intros [_ Hfirst]. destruct i as [| i]; [reflexivity |].
        exfalso. apply (Hfirst 0%nat b); [lia | reflexivity | exact Heq].
    + destruct i as [| i].
      * split.
        { destruct (find_url bs u); discriminate. }
        intros [(b0 & [= <-] & Hb0) _]. contradiction.
      * specialize (IH i). split.
        { destruct (find_url bs u) as [i' |]; [| discriminate].
          cbn. intros [= ->]. destruct IH as [[Hex Hfirst] _]; [reflexivity |].
          split; [exact Hex |]. intros [| j] b' Hj Hb'.
          - injection Hb' as <-. exact Hne.
          - apply (Hfirst j b'); [lia | exact Hb']. }
        intros [Hex Hfirst]. destruct IH as [_ IH].
        rewrite IH; [reflexivity |]. split; [exact Hex |].
        intros j b' Hj Hb'. apply (Hfirst (S j) b'); [lia | exact Hb'].
Qed.

Lemma SetAlive_run w idx alive b :
  backends (serverPool w) !! idx = Some b ->
  SetAlive idx alive w
  = ([EvSetAlive idx alive],
     Ok tt (set_backends w (<[idx := with_Alive b alive]> (backends (serverPool w))))).
Proof.
  intros Hb. unfold SetAlive. rewrite bind_get_pool, Hb.
  unfold bind, put_pool, emit. cbn. reflexivity.
Qed.

Lemma MarkBackendStatus_range_run bs u alive : forall idx w,
  MarkBackendStatus_range bs idx u alive w
  = match find_url bs u with
    | Some i => SetAlive (idx + i) alive w
    | None => ([], Ok tt w)
    end.
Proof.
  induction bs as [| b bs IH]; intros idx w; cbn; [reflexivity |].
  destruct (String.eqb (URL_String (URL b)) (URL_String u)).
  - rewrite Nat.add_0_r. reflexivity.
  - rewrite IH. destruct (find_url bs u) as [i |]; [| reflexivity].
    change (S <$> Some i) with (Some (S i)). cbv beta iota.
    replace (idx + S i)%nat with (S idx + i)%nat by lia. reflexivity.
Qed.

Lemma MarkBackendStatus_run u alive w :
  MarkBackendStatus u alive w
  = match find_url (backends (serverPool w)) u with
    | Some i => SetAlive i alive w
    | None => ([], Ok tt w)
    end.
Proof.
  unfold MarkBackendStatus. rewrite bind_get_pool.
  apply MarkBackendStatus_range_run.
Qed.



Lemma MarkBackendStatus_run_total u v w :
  exists t w', MarkBackendStatus u v w = (t, Ok tt w').
Proof.
  rewrite MarkBackendStatus_run.
  destruct (find_url (backends (serverPool w)) u) as [i |] eqn:Hf.
  - destruct (proj1 (find_url_Some _ _ _) Hf) as [(b & Hb & _) _].
    rewrite (SetAlive_run w i v b Hb). eauto.
  - eauto.
Qed.

Lemma MarkBackendStatus_at u v w i b :
  backends (serverPool w) !! i = Some b -> same_url u b ->
  (forall j b', (j < i)%nat -> backends (serverPool w) !! j = Some b' ->
                ~ same_url u b') ->
  MarkBackendStatus u v w
  = ([EvSetAlive i v],
     Ok tt (set_backends w (<[i := with_Alive b v]> (backends (serverPool w))))).
Proof.
  intros Hb Hsame Hfirst. rewrite MarkBackendStatus_run.
  rewrite (proj2 (find_url_Some _ u i)).
  - apply SetAlive_run. exact Hb.
  - split; [exists b; split; assumption | exact Hfirst].
Qed.



(** ** The request router *)

(** A peer returned by the scan is a backend of the pool, and the scan
    leaves the backends as they were. *)
Lemma GetNextPeer_for_valid n : forall i next w t p w',
  GetNextPeer_for n i next w = (t, Ok (Some p) w') ->
  backends (serverPool w') = backends (serverPool w)
  /\ exists b, backends (serverPool w) !! p = Some b.
Proof.
  induction n as [| n IH]; intros i next w t p w' H.
  - discriminate H.
  - cbn [GetNextPeer_for] in H. rewrite bind_get_pool in H.
    unfold backend_at in H. unfold bind at 1 in H. rewrite bind_get_pool in H.
    destruct (Int.int_rem i (len (serverPool w)) <? 0); [discriminate H |].
    destruct (backends (serverPool w) !! Z.to_nat (Int.int_rem i (len (serverPool w))))
      as [b |] eqn:Hb; [| discriminate H].
    unfold ret at 1 in H. cbn [fst app] in H.
    unfold IsAlive in H. unfold bind at 1 in H. rewrite bind_get_pool, Hb in H.
    unfold bind at 1 in H. unfold emit, ret at 1 in H. cbn [app] in H.
    destruct (Alive b).
    + destruct (negb (i =? next)).
      * unfold atomic_StoreUint64, bind, get_pool, put_pool, emit, ret in H.
        cbn in H. injection H as _ <- <-. cbn. eauto.
      * unfold bind, ret in H. cbn in H. injection H as _ <- <-. eauto.
    + destruct (GetNextPeer_for n (Int.int_add i 1) next w) as [t0 o0] eqn:Hrec.
      destruct o0 as [r w0 | msg]; [| discriminate H].
      injection H as _ -> ->. exact (IH _ _ _ _ _ _ Hrec).
Qed.

Lemma GetNextPeer_valid w t p w' :
  GetNextPeer w = (t, Ok (Some p) w') ->
  backends (serverPool w') = backends (serverPool w)
  /\ exists b, backends (serverPool w') !! p = Some b.
Proof.
  unfold GetNextPeer. unfold bind at 1.
  destruct (NextIndex w) as [t1 [next w1 | msg]] eqn:HN; [| discriminate].
  rewrite bind_get_pool.
  destruct (GetNextPeer_for _ next next w1) as [t2 o2] eqn:Hfor.
  intros [= _ -> ]. apply GetNextPeer_for_valid in Hfor as [Hbs Hex].
  assert (H1 : backends (serverPool w1) = backends (serverPool w)).
  { unfold NextIndex, atomic_AddUint64, bind, get_pool, put_pool, emit, ret in HN.
    cbn in HN.
    destruct (Int.to_uint64 _ =? 0); [discriminate HN |].
    injection HN as _ _ <-. reflexivity. }
  rewrite Hbs. split; [exact H1 | exact Hex].
Qed.

Lemma GetNextPeer_for_pool_events n : forall i next w,
  Forall (fun e => is_pool_event e = true) (fst (GetNextPeer_for n i next w)).
Proof.
  induction n as [| n IH]; intros i next w.
  - constructor.
  - cbn [GetNextPeer_for]. rewrite bind_get_pool.
    unfold backend_at. unfold bind at 1. rewrite bind_get_pool.
    destruct (Int.int_rem i (len (serverPool w)) <? 0); [constructor |].
    destruct (backends (serverPool w) !! Z.to_nat (Int.int_rem i (len (serverPool w))))
      as [b |] eqn:Hb; [| constructor].
    unfold ret at 1. cbn [fst app].
    unfold IsAlive. unfold bind at 1. rewrite bind_get_pool, Hb.
    unfold bind at 1. unfold emit, ret at 1. cbn [app].
    destruct (Alive b).
    + destruct (negb (i =? next)).
      * unfold atomic_StoreUint64, bind, get_pool, put_pool, emit, ret. cbn.
        repeat constructor.
      * unfold bind, ret. cbn. repeat constructor.
    + specialize (IH (Int.int_add i 1) next w).
      destruct (GetNextPeer_for n (Int.int_add i 1) next w) as [t0 o0].
      cbn [fst] in IH. destruct o0; cbn; constructor; auto.
Qed.

Lemma GetNextPeer_pool_events w :
  Forall (fun e => is_pool_event e = true) (fst (GetNextPeer w)).
Proof.
  unfold GetNextPeer. unfold bind at 1.
  destruct (NextIndex w) as [t1 o1] eqn:HN.
  assert (H1 : Forall (fun e => is_pool_event e = true) t1).
  { unfold NextIndex, atomic_AddUint64, bind, get_pool, put_pool, emit, ret in HN.
    cbn in HN. destruct (Int.to_uint64 _ =? 0); injection HN as <- _;
      repeat constructor. }
  destruct o1 as [next w1 | msg]; [| exact H1].
  rewrite bind_get_pool.
  pose proof (GetNextPeer_for_pool_events
                (Z.to_nat (Int.int_add next (len (serverPool w1)) - next))
                next next w1) as H2.
  destruct (GetNextPeer_for _ next next w1) as [t2 o2]. cbn [fst] in *.
  apply Forall_app. split; assumption.
Qed.

(** C4.  [lb] reads the request's attempts count (0 when absent).  Above 3
    it answers 503 and does nothing else: the cursor is not advanced, no
    alive flag is read and no proxy is invoked, so [GetNextPeer] is not
    called.  Otherwise it calls [GetNextPeer]: on nil it answers 503; on a
    peer it hands the request, unchanged, to that peer's reverse proxy and
    writes no response of its own.  Peer selection itself only touches the
    pool. *)
Theorem lb_routes (r : Request) (w : World) :
  let attempts := GetAttemptsFromContext r in
  (attempts > 3 ->
     lb r w = ([EvHttpError "Service not available" 503], Ok tt w))
  /\ (attempts <= 3 -> forall t w',
        GetNextPeer w = (t, Ok None w') ->
        lb r w = (t ++ [EvHttpError "Service Not Available" 503], Ok tt w'))
  /\ (attempts <= 3 -> forall t p w',
        GetNextPeer w = (t, Ok (Some p) w') ->
        exists b, backends (serverPool w') !! p = Some b
          /\ lb r w = (t ++ [EvServeHTTP (ReverseProxy b) r], Ok tt w'))
  /\ Forall (fun e => is_pool_event e = true) (fst (GetNextPeer w)).
Proof.
  intros attempts. split; [| split; [| split]].
  - intros Hgt. unfold lb. fold attempts. rewrite Z.gtb_ltb.
    destruct (Z.ltb_spec 3 attempts) as [_ | Hle]; [reflexivity | lia].
  - intros Hle t w' HG. unfold lb. fold attempts. rewrite Z.gtb_ltb.
    destruct (Z.ltb_spec 3 attempts) as [Hgt | _]; [lia |].
    unfold bind. rewrite HG. reflexivity.
  - intros Hle t p w' HG.
    destruct (GetNextPeer_valid w t p w' HG) as [_ [b Hb]].
    exists b. split; [exact Hb |].
    unfold lb. fold attempts. rewrite Z.gtb_ltb.
    destruct (Z.ltb_spec 3 attempts) as [Hgt | _]; [lia |].
    unfold bind at 1. rewrite HG. rewrite bind_get_pool, Hb. reflexivity.
  - apply GetNextPeer_pool_events.
Qed.

Lemma lb_routes_witness :
  let w := Demo.world [Demo.A; Demo.B; Demo.C] 0 in
  let dead := Demo.world [Demo.A] 0 in
  lb (Demo.attempted 4) w
    = ([EvHttpError "Service not available" 503], Ok tt w)
  /\ lb (Demo.attempted 3) dead
    = ([EvAtomicAdd 1; EvIsAlive 0 false; EvHttpError "Service Not Available" 503],
       Ok tt (set_cursor dead 1))
  /\ lb (Demo.attempted 3) w
    = ([EvAtomicAdd 1; EvIsAlive 1 true;
        EvServeHTTP (ReverseProxy Demo.B) (Demo.attempted 3)],
       Ok tt (set_cursor w 1)).
Proof.
  intros w dead.
  destruct (lb_routes (Demo.attempted 4) w) as (Hhigh & _ & _ & _).
  destruct (lb_routes (Demo.attempted 3) dead) as (_ & Hnil & _ & _).
  destruct (lb_routes (Demo.attempted 3) w) as (_ & _ & Hpeer & _).
  split; [| split].
  - apply Hhigh. cbn. lia.
  - apply (Hnil ltac:(cbn; lia) [EvAtomicAdd 1; EvIsAlive 0 false] (set_cursor dead 1)).
    reflexivity.
  - destruct (Hpeer ltac:(cbn; lia) [EvAtomicAdd 1; EvIsAlive 1 true] 1%nat
                (set_cursor w 1) eq_refl) as (b & Hb & Hrun).
    injection Hb as <-. exact Hrun.
Defined.

(** ** The proxy error handler *)

Lemma GetRetry_WithValue_Retry r x :
  GetRetryFromContext (WithContext r (WithValue (Ctx r) (AInt Retry) (AInt x))) = x.
Proof. reflexivity. Qed.

Lemma GetAttempts_WithValue_Retry r x :
  GetAttemptsFromContext (WithContext r (WithValue (Ctx r) (AInt Retry) x))
  = GetAttemptsFromContext r.
Proof. reflexivity. Qed.

Lemma GetAttempts_WithValue_Attempt r x :
  GetAttemptsFromContext (WithContext r (WithValue (Ctx r) (AInt Attempt) (AInt x))) = x.
Proof. reflexivity. Qed.

Lemma GetRetry_WithValue_Attempt r x :
  GetRetryFromContext (WithContext r (WithValue (Ctx r) (AInt Attempt) x))
  = GetRetryFromContext r.
Proof. reflexivity. Qed.

Lemma ErrorHandler_reroute serverUrl proxy r w :
  GetRetryFromContext r <= 3 ->
  ErrorHandler serverUrl proxy r w
  = (MarkBackendStatus serverUrl false ;; lb (reroute_request r)) w.
Proof.
  intros Hle. unfold ErrorHandler. rewrite Z.gtb_ltb.
  destruct (Z.ltb_spec 3 (GetRetryFromContext r)) as [Hgt | _]; [lia |].
  reflexivity.
Qed.

(** C1, amended.  On a forwarding failure the handler reads the request's
    retries count.  Above 3 it waits the fixed 10 ms delay and invokes the
    same proxy again with the request carrying retries + 1 (and nothing else
    changed); the pool is not touched.  Otherwise it calls
    [MarkBackendStatus(serverUrl, false)] with the URL of its peer, which
    marks dead the first backend of the pool registered under that URL and
    leaves every other backend as it was (so the peer itself is marked when
    no earlier backend has the same URL), then invokes [lb] with the request
    carrying attempts + 1. *)
Theorem ErrorHandler_retry_or_reroute
    (serverUrl : url_URL) (proxy : httputil_ReverseProxy) (r : Request) (w : World) :
  let retries := GetRetryFromContext r in
  let attempts := GetAttemptsFromContext r in
  (retries > 3 ->
     ErrorHandler serverUrl proxy r w
       = ([EvSleep 10; EvServeHTTP proxy (retry_request r)], Ok tt w)
     /\ GetRetryFromContext (retry_request r) = Int.int_add retries 1
     /\ (retries < Int.MaxInt -> GetRetryFromContext (retry_request r) = retries + 1)
     /\ GetAttemptsFromContext (retry_request r) = attempts)
  /\ (retries <= 3 ->
     exists t1 w1,
       MarkBackendStatus serverUrl false w = (t1, Ok tt w1)
       /\ (forall i b,
             backends (serverPool w) !! i = Some b -> same_url serverUrl b ->
             (forall j b', (j < i)%nat -> backends (serverPool w) !! j = Some b' ->
                           ~ same_url serverUrl b') ->
             t1 = [EvSetAlive i false] /\ alive_at (serverPool w1) i = Some false
             /\ (forall j, j <> i ->
                   backends (serverPool w1) !! j = backends (serverPool w) !! j))
       /\ ErrorHandler serverUrl proxy r w
          = (t1 ++ fst (lb (reroute_request r) w1), snd (lb (reroute_request r) w1))
       /\ GetAttemptsFromContext (reroute_request r) = Int.int_add attempts 1
       /\ (Int.MinInt <= attempts < Int.MaxInt ->
           GetAttemptsFromContext (reroute_request r) = attempts + 1)).
Proof.
  intros retries attempts. split.
  - intros Hgt.
    split; [| split; [| split]]; try reflexivity.
    + unfold ErrorHandler. fold retries. rewrite Z.gtb_ltb.
      destruct (Z.ltb_spec 3 retries) as [_ | Hle]; [reflexivity | lia].
    + intros Hmax. unfold retry_request. rewrite GetRetry_WithValue_Retry.
      fold retries. apply IntFacts.int_add_small. unfold Int.is_int.
      rewrite IntFacts.MinInt_eq. lia.
  - intros Hle.
    destruct (MarkBackendStatus_run_total serverUrl false w) as (t1 & w1 & Hrun).
    exists t1, w1. split; [exact Hrun |].
    split; [| split; [| split]]; try reflexivity.
    + intros i b Hb Hsame Hfirst.
      rewrite (MarkBackendStatus_at serverUrl false w i b Hb Hsame Hfirst) in Hrun.
      injection Hrun as <- <-.
      split; [reflexivity |]. unfold alive_at, set_backends. cbn [serverPool backends].
      split.
      * rewrite list_lookup_insert_eq by (eapply lookup_lt_Some; exact Hb).
        reflexivity.
      * intros j Hj. apply list_lookup_insert_ne. congruence.
    + rewrite (ErrorHandler_reroute serverUrl proxy r w Hle).
      unfold bind. rewrite Hrun. destruct (lb (reroute_request r) w1). reflexivity.
    + intros Hrange. unfold reroute_request. rewrite GetAttempts_WithValue_Attempt.
      fold attempts. apply IntFacts.int_add_small. unfold Int.is_int. lia.
Qed.

Lemma ErrorHandler_retry_or_reroute_witness :
  let w := Demo.world [Demo.A; Demo.B; Demo.C] 0 in
  ErrorHandler (URL Demo.B) (ReverseProxy Demo.B) (Demo.retried 4) w
    = ([EvSleep 10; EvServeHTTP (ReverseProxy Demo.B) (Demo.retried2 4 5)],
       Ok tt w)
  /\ ErrorHandler (URL Demo.B) (ReverseProxy Demo.B) Demo.fresh w
    = ([EvSetAlive 1 false; EvAtomicAdd 1; EvIsAlive 1 false; EvIsAlive 2 true;
        EvAtomicStore 2; EvServeHTTP (ReverseProxy Demo.C) (Demo.attempted 1)],
       Ok tt (Demo.world
                [Demo.A; Demo.backend 1 "b:3032" false; Demo.C] 2)).
Proof.
  intros w.
  destruct (ErrorHandler_retry_or_reroute
              (URL Demo.B) (ReverseProxy Demo.B) (Demo.retried 4) w)
    as [Hretry _].
  destruct (ErrorHandler_retry_or_reroute
              (URL Demo.B) (ReverseProxy Demo.B) Demo.fresh w)
    as [_ Hreroute].
  split.
  - destruct Hretry as (Hrun & _); [cbn; lia |]. rewrite Hrun. reflexivity.
  - destruct Hreroute as (t1 & w1 & HM & _ & Hrun & _); [cbn; lia |].
    rewrite Hrun. cbv in HM. injection HM as <- <-. reflexivity.
Defined.

(** C1 as stated fails: with the backend list [a:3031,a:3031,c:3033] the
    handler of the second backend marks the first one, and its own peer
    stays alive. *)
Lemma reroute_marks_current_peer_counterexample : ~ reroute_marks_current_peer.
Proof.
  intros H.
  set (s := {| backends := [Demo.backend 0 "a:3031" true; Demo.backend 1 "a:3031" true;
                            Demo.backend 2 "c:3033" true];
               currentIndex := 0 |}).
  assert (Hmain : main Demo.parse "a:3031,a:3031,c:3033" 3030 = ListenAndServe 3030 s)
    by reflexivity.
  assert (Hr : GetRetryFromContext Demo.fresh <= 3) by (cbn; lia).
  destruct (H Demo.parse "a:3031,a:3031,c:3033" 3030 s 1%nat
              (Demo.backend 1 "a:3031" true) Demo.fresh Hmain eq_refl Hr)
    as (t1 & w1 & HM & Hdead & _).
  vm_compute in HM. injection HM as <- <-.
  vm_compute in Hdead. discriminate Hdead.
Qed.

(** ** Rerouting and the retries count *)

Lemma MarkBackendStatus_pool_events u v w :
  Forall (fun e => is_pool_event e = true) (fst (MarkBackendStatus u v w)).
Proof.
  rewrite MarkBackendStatus_run.
  destruct (find_url (backends (serverPool w)) u) as [i |] eqn:Hf; [| constructor].
  destruct (proj1 (find_url_Some _ _ _) Hf) as [(b & Hb & _) _].
  rewrite (SetAlive_run w i v b Hb). repeat constructor.
Qed.

(** The only request [lb] ever hands to a proxy is the one it was given. *)
Lemma lb_serves_its_request r w p r0 :
  EvServeHTTP p r0 ∈ fst (lb r w) -> r0 = r.
Proof.
  unfold lb. destruct (GetAttemptsFromContext r >? 3).
  - cbn. intros H. apply list_elem_of_singleton in H. discriminate H.
  - unfold bind at 1. pose proof (GetNextPeer_pool_events w) as Hpool.
    destruct (GetNextPeer w) as [t [peer w' | msg]]; cbn [fst] in Hpool.
    + assert (Hnot : EvServeHTTP p r0 ∈ t -> False).
      { intros Hin. rewrite Forall_forall in Hpool.
        specialize (Hpool _ Hin). discriminate Hpool. }
      destruct peer as [q |].
      * rewrite bind_get_pool.
        destruct (backends (serverPool w') !! q) as [b |]; cbn.
        -- rewrite elem_of_app, list_elem_of_singleton.
           intros [Hin | [= _ ->]]; [destruct (Hnot Hin) | reflexivity].
        -- rewrite app_nil_r. intros Hin. destruct (Hnot Hin).
      * cbn. rewrite elem_of_app, list_elem_of_singleton.
        intros [Hin | Heq]; [destruct (Hnot Hin) | discriminate Heq].
    + cbn. intros Hin. rewrite Forall_forall in Hpool.
      specialize (Hpool _ Hin). discriminate Hpool.
Qed.

(** C5, as stated, fails: a request that fails with retries = 2 is rerouted
    to the next peer still carrying retries = 2. *)
Lemma reroute_resets_retries_counterexample : ~ reroute_resets_retries.
Proof.
  intros H.
  specialize (H (URL Demo.B) (ReverseProxy Demo.B) (Demo.retried 2)
                (Demo.world [Demo.A; Demo.B; Demo.C] 0)
                [EvSetAlive 1 false; EvAtomicAdd 1; EvIsAlive 1 false;
                 EvIsAlive 2 true; EvAtomicStore 2]
                (ReverseProxy Demo.C)
                (reroute_request (Demo.retried 2))
                (Ok tt (Demo.world
                          [Demo.A; Demo.backend 1 "b:3032" false; Demo.C] 2))).
  cbn in H. specialize (H ltac:(lia) eq_refl). discriminate H.
Qed.

(** C5, amended.  When the reroute branch hands the request to a new peer,
    the request carries the retries count of the failing request, unchanged
    (the handler only attaches a new attempts count); so it is 0 exactly
    when the failing request carried 0, in particular when that request
    carried no count under [Retry] at all. *)
Theorem reroute_keeps_retries
    (serverUrl : url_URL) (proxy : httputil_ReverseProxy) (r : Request) (w : World)
    (t : list Event) (p : httputil_ReverseProxy) (r' : Request) (o : Outcome unit) :
  GetRetryFromContext r <= 3 ->
  ErrorHandler serverUrl proxy r w = (t ++ [EvServeHTTP p r'], o) ->
  r' = reroute_request r
  /\ GetRetryFromContext r' = GetRetryFromContext r
  /\ (Value (Ctx r) (AInt Retry) = None -> GetRetryFromContext r' = 0)
  /\ GetAttemptsFromContext r' = Int.int_add (GetAttemptsFromContext r) 1.
Proof.
  intros Hle Hrun.
  assert (Hr' : r' = reroute_request r).
  { rewrite (ErrorHandler_reroute serverUrl proxy r w Hle) in Hrun.
    unfold bind in Hrun.
    pose proof (MarkBackendStatus_pool_events serverUrl false w) as Hpool.
    destruct (MarkBackendStatus serverUrl false w) as [t1 [[] w1 | msg]];
      cbn [fst] in Hpool.
    - pose proof (lb_serves_its_request (reroute_request r) w1 p r') as Hlb.
      destruct (lb (reroute_request r) w1) as [t2 o2]. cbn [fst] in Hlb.
      injection Hrun as Ht _.
      assert (Hin : EvServeHTTP p r' ∈ t1 ++ t2).
      { rewrite Ht, elem_of_app, list_elem_of_singleton. right. reflexivity. }
      apply elem_of_app in Hin as [Hin | Hin]; [| exact (Hlb Hin)].
      rewrite Forall_forall in Hpool. specialize (Hpool _ Hin). discriminate Hpool.
    - injection Hrun as Ht _.
      assert (Hin : EvServeHTTP p r' ∈ t1).
      { rewrite Ht, elem_of_app, list_elem_of_singleton. right. reflexivity. }
      rewrite Forall_forall in Hpool. specialize (Hpool _ Hin). discriminate Hpool. }
  subst r'. split; [reflexivity |]. split; [reflexivity |].
  split; [| reflexivity].
  intros Hnone. unfold reroute_request. rewrite GetRetry_WithValue_Attempt.
  unfold GetRetryFromContext. rewrite Hnone. reflexivity.
Qed.

Lemma reroute_keeps_retries_witness :
  GetRetryFromContext (reroute_request (Demo.retried 2)) = 2
  /\ GetAttemptsFromContext (reroute_request (Demo.retried 2)) = 1.
Proof.
  destruct (reroute_keeps_retries
              (URL Demo.B) (ReverseProxy Demo.B) (Demo.retried 2)
              (Demo.world [Demo.A; Demo.B; Demo.C] 0)
              [EvSetAlive 1 false; EvAtomicAdd 1; EvIsAlive 1 false;
               EvIsAlive 2 true; EvAtomicStore 2]
              (ReverseProxy Demo.C)
              (reroute_request (Demo.retried 2))
              (Ok tt (Demo.world
                        [Demo.A; Demo.backend 1 "b:3032" false; Demo.C] 2)))
    as (_ & Hret & _ & Hatt).
  - cbn. lia.
  - reflexivity.
  - split; [exact Hret | exact Hatt].
Defined.

(** ** The cursor over time *)

(** C3, as stated, fails: with the first of three backends dead and the
    cursor at 5, [GetNextPeer] reads 6, skips the dead backend and stores 1;
    the next [NextIndex] reads 2. *)
Lemma cursor_monotone_counterexample : ~ cursor_monotone.
Proof.
  intros H.
  specialize (H [OpGetNextPeer; OpNextIndex]
                (Demo.world [Demo.A; Demo.B; Demo.C] 5)
                ltac:(concrete_wf) ltac:(unfold len; cbn; lia)).
  specialize (H 0%nat 1%nat 6 2 ltac:(lia) eq_refl eq_refl). lia.
Qed.

Lemma cursor_reads_app t1 t2 :
  cursor_reads (t1 ++ t2) = cursor_reads t1 ++ cursor_reads t2.
Proof. apply omap_app. Qed.

Lemma cursor_reads_dead_reads s start k : cursor_reads (dead_reads s start k) = [].
Proof.
  unfold cursor_reads, dead_reads. induction (seq 0 k) as [| j l IH]; [reflexivity |].
  cbn. exact IH.
Qed.

Lemma dead_reads_no_store s start k :
  Forall (fun e => is_AtomicStore e = false) (dead_reads s start k).
Proof. unfold dead_reads. apply Forall_fmap, Forall_true. reflexivity. Qed.

(** An operation that stores nothing leaves the cursor one further. *)
Lemma run_op_no_store op w :
  wf_pool (serverPool w) -> 1 <= len (serverPool w) ->
  Forall (fun e => is_AtomicStore e = false) (fst (run_op op w)) ->
  let c' := Int.uint64_add (currentIndex (serverPool w)) 1 in
  exists t, run_op op w = (t, Ok tt (set_cursor w c')) /\ cursor_reads t = [c'].
Proof.
  intros Hwf Hlen Hns c'.
  assert (Hdrop : forall A (m : M A) t a w', m w = (t, Ok a w') ->
            (_ <- m ;; ret tt) w = (t, Ok tt w')).
  { intros A m t a w' Hm. unfold bind, ret. rewrite Hm. cbn.
    rewrite app_nil_r. reflexivity. }
  destruct op; unfold run_op in *.
  - pose proof (NextIndex_run w Hwf Hlen) as HN. cbn zeta in HN. fold c' in HN.
    rewrite (Hdrop _ _ _ _ _ HN). eexists. split; reflexivity.
  - destruct (GetNextPeer_run w Hwf Hlen) as [[k (_ & _ & _ & Hrun)] | [_ Hrun]];
      fold c' in Hrun; rewrite (Hdrop _ _ _ _ _ Hrun) in *; cbn [fst] in Hns.
    + destruct k as [| k]; cbn [Nat.eqb] in *.
      * eexists. split; [reflexivity |].
        change (EvAtomicAdd c' :: ?l) with ([EvAtomicAdd c'] ++ l).
        rewrite !cursor_reads_app, cursor_reads_dead_reads. reflexivity.
      * exfalso.
        apply Forall_cons in Hns as [_ Hns]. apply Forall_app in Hns as [_ Hns].
        apply Forall_cons in Hns as [_ Hns]. apply Forall_cons in Hns as [Hns _].
        discriminate Hns.
    + eexists. split; [reflexivity |].
      change (EvAtomicAdd c' :: ?l) with ([EvAtomicAdd c'] ++ l).
      rewrite cursor_reads_app, cursor_reads_dead_reads. reflexivity.
Qed.

Lemma bind_trace_prefix {A B} (m : M A) (k : A -> M B) w (P : Event -> Prop) :
  Forall P (fst (bind m k w)) -> Forall P (fst (m w)).
Proof.
  unfold bind. destruct (m w) as [t [a w' | msg]]; [| trivial].
  destruct (k a w') as [t' o]. cbn. intros H. apply Forall_app in H. tauto.
Qed.

Lemma run_ops_no_store ops : forall w,
  wf_pool (serverPool w) -> 1 <= len (serverPool w) ->
  currentIndex (serverPool w) + Z.of_nat (length ops) < Int.uint64_modulus ->
  Forall (fun e => is_AtomicStore e = false) (fst (run_ops ops w)) ->
  cursor_reads (fst (run_ops ops w))
  = map (fun k => currentIndex (serverPool w) + Z.of_nat k) (seq 1 (length ops)).
Proof.
  induction ops as [| op ops IH]; intros w Hwf Hlen Hfit Hns; [reflexivity |].
  cbn [run_ops] in *.
  destruct (run_op_no_store op w Hwf Hlen (bind_trace_prefix _ _ _ _ Hns))
    as (t & Hop & Hreads).
  set (c := currentIndex (serverPool w)) in *.
  assert (Hc' : Int.uint64_add c 1 = c + 1).
  { apply IntFacts.uint64_add_small. destruct Hwf as [[Hc0 _] _]. fold c in Hc0.
    cbn [length] in Hfit. lia. }
  rewrite Hc' in Hop, Hreads.
  set (w1 := set_cursor w (c + 1)) in *.
  assert (Hwf1 : wf_pool (serverPool w1)).
  { apply wf_set_cursor; [exact Hwf |]. rewrite <- Hc'. apply IntFacts.uint64_add_range. }
  unfold bind in Hns |- *. rewrite Hop in Hns |- *.
  specialize (IH w1 Hwf1 Hlen).
  destruct (run_ops ops w1) as [t' o]. cbn [fst] in *.
  rewrite cursor_reads_app, Hreads.
  rewrite IH.
  - change (currentIndex (serverPool w1)) with (c + 1).
    change (length (op :: ops)) with (S (length ops)).
    cbn [seq map app]. f_equal.
    rewrite <- (fmap_S_seq 1), <- list_fmap_compose.
    apply list_fmap_ext. intros _ k _. cbn [compose]. lia.
  - cbn [length] in Hfit. cbn. lia.
  - apply Forall_app in Hns. tauto.
Qed.

Lemma consecutive_increasing c n :
  strictly_increasing (map (fun k => c + Z.of_nat k) (seq 1 n)).
Proof.
  intros i j x y Hij Hi Hj.
  rewrite list_lookup_fmap in Hi, Hj.
  destruct (seq 1 n !! i) as [a |] eqn:Ha; [| discriminate].
  destruct (seq 1 n !! j) as [b |] eqn:Hb; [| discriminate].
  apply lookup_seq in Ha as [-> _]. apply lookup_seq in Hb as [-> _].
  cbn in Hi, Hj. injection Hi as <-. injection Hj as <-. lia.
Qed.

(** C3, amended.  In a schedule of [NextIndex] and [GetNextPeer] operations
    during which no [GetNextPeer] stores into the cursor (none has to skip a
    dead backend) and the cursor does not reach 2^64, the reads of the
    cursor are [c+1, c+2, ...]: each one is strictly greater than all the
    reads before it. *)
Theorem cursor_increasing_without_store (ops : list PoolOp) (w : World) :
  wf_pool (serverPool w) -> 1 <= len (serverPool w) ->
  currentIndex (serverPool w) + Z.of_nat (length ops) < Int.uint64_modulus ->
  Forall (fun e => is_AtomicStore e = false) (fst (run_ops ops w)) ->
  cursor_reads (fst (run_ops ops w))
    = map (fun k => currentIndex (serverPool w) + Z.of_nat k) (seq 1 (length ops))
  /\ strictly_increasing (cursor_reads (fst (run_ops ops w))).
Proof.
  intros Hwf Hlen Hfit Hns.
  pose proof (run_ops_no_store ops w Hwf Hlen Hfit Hns) as Hreads.
  split; [exact Hreads |]. rewrite Hreads. apply consecutive_increasing.
Qed.

Lemma cursor_increasing_without_store_witness :
  let w := Demo.world [Demo.A; Demo.B; Demo.C] 0 in
  cursor_reads (fst (run_ops [OpGetNextPeer; OpNextIndex; OpNextIndex] w)) = [1; 2; 3].
Proof.
  intros w.
  destruct (cursor_increasing_without_store
              [OpGetNextPeer; OpNextIndex; OpNextIndex] w) as [Hreads _].
  - concrete_wf.
  - unfold len. cbn. lia.
  - cbn. rewrite IntFacts.modulus_eq. lia.
  - cbv. repeat constructor.
  - exact Hreads.
Defined.

(** ** The liveness prober *)

Section ProberFacts.

Variable net : nat -> string -> Z -> bool.

Lemma isBackendAlive_run u w :
  isBackendAlive net u w
  = ([EvDial (URL_Host u) 2 (net (dials w) (URL_Host u) 2)],
     Ok (net (dials w) (URL_Host u) 2)
        {| serverPool := serverPool w; dials := S (dials w) |}).
Proof.
  unfold isBackendAlive, DialTimeout, bind, ret.
  destruct (net (dials w) (URL_Host u) 2); reflexivity.
Qed.

Lemma HealthCheck_range_run : forall bs pre post w,
  backends (serverPool w) = pre ++ bs ++ post ->
  HealthCheck_range net bs (length pre) w
  = (concat (imap (fun i b => probe_events net (dials w + i) (length pre + i) b) bs),
     Ok tt
        {| serverPool :=
             {| backends :=
                  pre ++ imap (fun i b => with_Alive b (verdict net (dials w + i) b)) bs
                      ++ post;
                currentIndex := currentIndex (serverPool w) |};
           dials := dials w + length bs |}).
Proof.
  induction bs as [| b bs IH]; intros pre post [[bs0 c] d] Hbs;
    cbn [serverPool backends currentIndex dials] in *.
  - cbn. unfold ret. rewrite Nat.add_0_r. cbn in Hbs. subst bs0. reflexivity.
  - cbn [HealthCheck_range]. unfold bind at 1. rewrite isBackendAlive_run.
    cbn [serverPool dials].
    set (v := net d (URL_Host (URL b)) 2).
    set (w1 := {| serverPool := {| backends := bs0; currentIndex := c |};
                  dials := S d |}).
    assert (Hset : (if v then SetAlive (length pre) true
                    else SetAlive (length pre) false) = SetAlive (length pre) v)
      by (destruct v; reflexivity).
    rewrite Hset. unfold bind at 1.
    assert (Hb : backends (serverPool w1) !! length pre = Some b).
    { cbn. rewrite Hbs. apply list_lookup_middle. reflexivity. }
    rewrite (SetAlive_run w1 (length pre) v b Hb).
    set (w2 := set_backends w1 _).
    assert (Hbs2 : backends (serverPool w2) = (pre ++ [with_Alive b v]) ++ bs ++ post).
    { unfold w2, set_backends, w1. cbn [serverPool backends]. rewrite Hbs.
      replace (length pre) with (length pre + 0)%nat at 1 by lia.
      rewrite insert_app_r. cbn. rewrite <- app_assoc. reflexivity. }
    specialize (IH (pre ++ [with_Alive b v]) post w2 Hbs2).
    rewrite length_app in IH. cbn [length] in IH.
    replace (length pre + 1)%nat with (S (length pre)) in IH by lia.
    rewrite IH. cbn [app]. rewrite !imap_cons. cbn [concat].
    unfold probe_events at 2. unfold verdict at 3 4 5. rewrite !Nat.add_0_r.
    fold v. cbn [app]. f_equal.
    + f_equal. f_equal. f_equal. apply imap_ext. intros i x _.
      unfold w2, set_backends, w1, compose. cbn [dials].
      replace (S d + i)%nat with (d + S i)%nat by lia.
      replace (S (length pre) + i)%nat with (length pre + S i)%nat by lia.
      reflexivity.
    + unfold w2, set_backends, w1. cbn [serverPool backends currentIndex dials].
      rewrite <- app_assoc. cbn [app length].
      replace (S d + length bs)%nat with (d + S (length bs))%nat by lia.
      f_equal. f_equal. f_equal. f_equal. f_equal. f_equal.
      apply imap_ext. intros i x _. unfold compose.
      replace (S d + i)%nat with (d + S i)%nat by lia. reflexivity.
Qed.

Lemma HealthCheck_run w :
  let bs := backends (serverPool w) in
  HealthCheck net w
  = (concat (imap (fun i b => probe_events net (dials w + i) i b) bs),
     Ok tt
        {| serverPool :=
             {| backends := imap (fun i b => with_Alive b (verdict net (dials w + i) b)) bs;
                currentIndex := currentIndex (serverPool w) |};
           dials := dials w + length bs |}).
Proof.
  intros bs. unfold HealthCheck. rewrite bind_get_pool.
  change 0%nat with (length (@nil Backend)).
  subst bs.
  rewrite (HealthCheck_range_run (backends (serverPool w)) [] [] w)
    by (rewrite app_nil_r; reflexivity).
  cbn [app length]. rewrite app_nil_r. reflexivity.
Qed.

(** The pass after its first [k] iterations: the backends it has not reached
    yet are as they were. *)
Lemma HealthCheck_partial w k i :
  (k <= i)%nat ->
  exists t w',
    HealthCheck_range net (take k (backends (serverPool w))) 0 w = (t, Ok tt w')
    /\ alive_at (serverPool w') i = alive_at (serverPool w) i.
Proof.
  intros Hki. set (bs := backends (serverPool w)).
  change 0%nat with (length (@nil Backend)).
  rewrite (HealthCheck_range_run (take k bs) [] (drop k bs) w)
    by (cbn [app]; rewrite take_drop; reflexivity).
  eexists _, _. split; [reflexivity |].
  unfold alive_at. cbn [serverPool backends app]. fold bs. f_equal.
  destruct (Nat.le_gt_cases (length bs) i) as [Hout | Hin].
  - rewrite !lookup_ge_None_2; [reflexivity | exact Hout |].
    rewrite length_app, length_imap, length_take, length_drop. lia.
  - rewrite lookup_app_r; rewrite length_imap, length_take; [| lia].
    rewrite lookup_drop. f_equal. lia.
Qed.


End ProberFacts.

Lemma healthCheck_ticks_head net n w :
  exists rest, fst (healthCheck_ticks net (S n) w) = EvTick :: rest.
Proof.
  cbn [healthCheck_ticks]. unfold bind at 1, emit.
  destruct ((HealthCheck net;; healthCheck_ticks net n) w) as [t o].
  cbn. eauto.
Qed.

Lemma not_in_concat_imap {A} (e : Event) (l : list A) : forall f : nat -> A -> list Event,
  (forall i a, e ∉ f i a) -> e ∉ concat (imap f l).
Proof.
  induction l as [| a l IH]; intros f Hf; cbn.
  - intros Hin. inversion Hin.
  - rewrite elem_of_app. intros [Hin | Hin].
    + exact (Hf _ _ Hin).
    + apply (IH (f ∘ S)); [| exact Hin]. intros i x. apply Hf.
Qed.

(** C8.  A health-check pass never fails.  It visits the backends in
    registration order; for each it dials the backend's host over TCP with a
    2-second timeout and then sets the backend's alive flag to true when the
    dial succeeded and to false when it failed or timed out; it changes
    nothing else.  [healthCheck] runs one such pass first: every event of
    that pass precedes the first tick of the ticker. *)
Theorem HealthCheck_pass (net : nat -> string -> Z -> bool) (w : World) (ticks : nat) :
  let bs := backends (serverPool w) in
  let up i b := net (dials w + i)%nat (URL_Host (URL b)) 2 in
  exists t w',
    HealthCheck net w = (t, Ok tt w')
    /\ t = concat (imap (fun i b => [EvDial (URL_Host (URL b)) 2 (up i b);
                                     EvSetAlive i (up i b)]) bs)
    /\ length (backends (serverPool w')) = length bs
    /\ (forall i b, bs !! i = Some b ->
          backends (serverPool w') !! i
          = Some {| URL := URL b; Alive := up i b; ReverseProxy := ReverseProxy b |}
          /\ alive_at (serverPool w') i = Some (up i b))
    /\ currentIndex (serverPool w') = currentIndex (serverPool w)
    /\ healthCheck net 0 w = (t, Ok tt w')
    /\ (exists rest,
          fst (healthCheck net ticks w) = t ++ rest
          /\ (ticks = 0%nat -> rest = [])
          /\ (ticks <> 0%nat -> exists rest', rest = EvTick :: rest'))
    /\ EvTick ∉ t.
Proof.
  intros bs up. pose proof (HealthCheck_run net w) as Hrun. cbn zeta in Hrun.
  fold bs in Hrun. eexists _, _. split; [exact Hrun |].
  split; [reflexivity |]. cbn [serverPool backends currentIndex].
  split; [apply length_imap |].
  split.
  { intros i b Hb. unfold alive_at. cbn [serverPool backends].
    rewrite list_lookup_imap, Hb. split; reflexivity. }
  split; [reflexivity |].
  split.
  { unfold healthCheck, bind. rewrite Hrun. cbn. rewrite app_nil_r. reflexivity. }
  split.
  { unfold healthCheck. unfold bind at 1. rewrite Hrun.
    match goal with |- context [healthCheck_ticks net ticks ?x] =>
      set (w1 := x) end.
    exists (fst (healthCheck_ticks net ticks w1)).
    split; [destruct (healthCheck_ticks net ticks w1); reflexivity |].
    split.
    - intros ->. reflexivity.
    - intros Hne. destruct ticks as [| n]; [contradiction |].
      apply healthCheck_ticks_head. }
  apply not_in_concat_imap. intros i b Hin.
  repeat (apply elem_of_cons in Hin as [Hin | Hin]; [discriminate Hin |]).
  inversion Hin.
Qed.

Lemma HealthCheck_pass_witness :
  let net := fun (d : nat) (host : string) (timeout_s : Z) =>
               negb (String.eqb host "b:3032") in
  let w := Demo.world [Demo.A; Demo.B; Demo.C] 7 in
  exists t w',
    HealthCheck net w = (t, Ok tt w')
    /\ alive_at (serverPool w) 0 = Some false
    /\ alive_at (serverPool w') 0 = Some true
    /\ alive_at (serverPool w) 1 = Some true
    /\ alive_at (serverPool w') 1 = Some false
    /\ backends (serverPool w') !! 1%nat = Some (Demo.backend 1 "b:3032" false).
Proof.
  intros net w.
  destruct (HealthCheck_pass net w 0) as (t & w' & Hrun & _ & _ & Hflags & _).
  exists t, w'. split; [exact Hrun |].
  split; [reflexivity |]. split; [exact (proj2 (Hflags 0%nat Demo.A eq_refl)) |].
  split; [reflexivity |]. split; [exact (proj2 (Hflags 1%nat Demo.B eq_refl)) |].
  exact (proj1 (Hflags 1%nat Demo.B eq_refl)).
Defined.

Lemma HealthCheck_example :
  let net := fun (d : nat) (host : string) (timeout_s : Z) =>
               negb (String.eqb host "b:3032") in
  HealthCheck net (Demo.world [Demo.A; Demo.B; Demo.C] 7)
  = ([EvDial "a:3031" 2 true; EvSetAlive 0 true;
      EvDial "b:3032" 2 false; EvSetAlive 1 false;
      EvDial "c:3033" 2 true; EvSetAlive 2 true],
     Ok tt {| serverPool :=
                {| backends := [Demo.backend 0 "a:3031" true;
                                Demo.backend 1 "b:3032" false;
                                Demo.backend 2 "c:3033" true];
                   currentIndex := 7 |};
              dials := 3 |}).
Proof. reflexivity. Qed.

(** ** Start-up *)

Section MainFacts.

Variable url_Parse : string -> url_URL + string.

(** C9.  With an empty backend list [main] ends in [log.Fatal] before the
    registration loop: no backend has been added to the pool, and
    [ListenAndServe] is not reached. *)
Theorem main_rejects_empty_list (port : Z) :
  main url_Parse "" port
    = Fatal "Please provide one or more backends to load balance" serverPool_zero
  /\ backends serverPool_zero = []
  /\ (forall port' s, main url_Parse "" port <> ListenAndServe port' s).
Proof.
  split; [reflexivity |]. split; [reflexivity |].
  intros port' s H. discriminate H.
Qed.




End MainFacts.

(** ** The window before the first health check *)

Lemma GetNextPeer_all_alive w :
  wf_pool (serverPool w) -> 1 <= len (serverPool w) ->
  (forall b, b ∈ backends (serverPool w) -> Alive b = true) ->
  let c' := Int.uint64_add (currentIndex (serverPool w)) 1 in
  let p := Z.to_nat (c' mod len (serverPool w)) in
  GetNextPeer w = ([EvAtomicAdd c'; EvIsAlive p true], Ok (Some p) (set_cursor w c')).
Proof.
  intros Hwf Hlen Hall c' p. set (s := serverPool w) in *.
  assert (H0 : alive_at s (rot s (c' mod len s) 0) = Some true).
  { unfold alive_at.
    destruct (lookup_lt_is_Some_2 (backends s) _ (rot_lt s (c' mod len s) 0 Hlen))
      as [b Hb].
    rewrite Hb. cbn. f_equal. apply Hall. apply list_elem_of_lookup. eauto. }
  assert (Hp : rot s (c' mod len s) 0 = p).
  { unfold rot, p. rewrite Z.add_0_r, Z.mod_mod by lia. reflexivity. }
  destruct (GetNextPeer_run w Hwf Hlen) as [[k (_ & _ & Hkd & Hrun)] | [Hd _]];
    fold s c' in Hkd || fold s c' in Hd.
  - destruct k as [| k].
    + fold s c' in Hrun. rewrite Hrun, Hp. reflexivity.
    + specialize (Hkd 0%nat ltac:(lia)). congruence.
  - specialize (Hd 0%nat ltac:(unfold len in Hlen; lia)). congruence.
Qed.

Lemma GetNextPeer_times_all_alive n : forall w,
  wf_pool (serverPool w) -> 1 <= len (serverPool w) ->
  (forall b, b ∈ backends (serverPool w) -> Alive b = true) ->
  returned (times n GetNextPeer w)
  = Some (map (fun k => Some (Z.to_nat
                 (((currentIndex (serverPool w) + Z.of_nat k) mod Int.uint64_modulus)
                    mod len (serverPool w))))
              (seq 1 n)).
Proof.
  induction n as [| n IH]; intros w Hwf Hlen Hall; [reflexivity |].
  pose proof (GetNextPeer_all_alive w Hwf Hlen Hall) as H1. cbn zeta in H1.
  set (c := currentIndex (serverPool w)) in *.
  set (w1 := set_cursor w (Int.uint64_add c 1)) in *.
  assert (Hwf1 : wf_pool (serverPool w1)).
  { apply wf_set_cursor; [exact Hwf | apply IntFacts.uint64_add_range]. }
  specialize (IH w1 Hwf1 Hlen Hall).
  cbn [times]. unfold returned in *. unfold bind at 1. rewrite H1.
  unfold bind. destruct (times n GetNextPeer w1) as [t [l w2 | msg]];
    cbn [snd] in IH; [| discriminate IH].
  injection IH as ->. cbn [snd ret]. f_equal. cbn [seq map]. f_equal.
  change (currentIndex (serverPool w1)) with (Int.uint64_add c 1).
  change (len (serverPool w1)) with (len (serverPool w)).
  rewrite <- (fmap_S_seq 1), <- list_fmap_compose.
  apply list_fmap_ext. intros _ k _. cbn [compose].
  unfold Int.uint64_add. rewrite Zplus_mod_idemp_l.
  replace (c + 1 + Z.of_nat k) with (c + Z.of_nat (S k)) by lia. reflexivity.
Qed.





(** ** A request from the listener to its end *)

Lemma pool_events_quiet t :
  Forall (fun e => is_pool_event e = true) t -> Forall quiet t.
Proof.
  intros Hpool. eapply Forall_impl; [exact Hpool |].
  intros e He. destruct e; try exact I; discriminate He.
Qed.

Lemma pool_events_not_forwarded t :
  Forall (fun e => is_pool_event e = true) t -> forwarded t = None.
Proof.
  intros Hpool. unfold forwarded. destruct (last t) as [e |] eqn:Hlast; [| reflexivity].
  apply last_Some_elem_of in Hlast. rewrite Forall_forall in Hpool.
  specialize (Hpool e Hlast). destruct e; try reflexivity. discriminate Hpool.
Qed.

Lemma forwarded_snoc t e :
  forwarded (t ++ [e])
  = match e with EvServeHTTP p r => Some (p, r) | _ => None end.
Proof. unfold forwarded. rewrite last_snoc. reflexivity. Qed.

Lemma lb_unfold r w :
  lb r w
  = if GetAttemptsFromContext r >? 3 then
      ([EvHttpError "Service not available" StatusServiceUnavailable], Ok tt w)
    else
      match GetNextPeer w with
      | (t, Ok (Some q) w') =>
          match backends (serverPool w') !! q with
          | Some b => (t ++ [EvServeHTTP (ReverseProxy b) r], Ok tt w')
          | None => (t, Panic "nil pointer dereference")
          end
      | (t, Ok None w') =>
          (t ++ [EvHttpError "Service Not Available" StatusServiceUnavailable],
           Ok tt w')
      | (t, Panic msg) => (t, Panic msg)
      end.
Proof.
  unfold lb. destruct (GetAttemptsFromContext r >? 3); [reflexivity |].
  unfold bind at 1. destruct (GetNextPeer w) as [t [[q |] w' | msg]];
    [| reflexivity | reflexivity].
  rewrite bind_get_pool.
  destruct (backends (serverPool w') !! q) as [b |]; cbn;
    rewrite ?app_nil_r; reflexivity.
Qed.

Lemma lb_run_ok r w :
  GetRetryFromContext r = 0 -> 0 <= GetAttemptsFromContext r ->
  run_ok (GetAttemptsFromContext r) (lb r w).
Proof.
  intros Hret Hatt. unfold run_ok. rewrite lb_unfold, Z.gtb_ltb.
  destruct (Z.ltb_spec 3 (GetAttemptsFromContext r)) as [Hgt | Hle].
  - cbn. split; [repeat constructor | discriminate].
  - pose proof (GetNextPeer_pool_events w) as Hpool.
    destruct (GetNextPeer w) as [t [[q |] w' | msg]]; cbn [fst] in Hpool.
    + destruct (backends (serverPool w') !! q) as [b |]; cbn [fst].
      * split.
        -- apply Forall_app. split; [apply pool_events_quiet, Hpool |].
           repeat constructor; [exact Hret | exact Hatt | exact Hle].
        -- rewrite forwarded_snoc. intros p r' [= _ <-]. lia.
      * split; [apply pool_events_quiet, Hpool |].
        rewrite (pool_events_not_forwarded t Hpool). discriminate.
    + cbn [fst]. split.
      * apply Forall_app. split; [apply pool_events_quiet, Hpool |].
        repeat constructor.
      * rewrite forwarded_snoc. discriminate.
    + cbn [fst]. split; [apply pool_events_quiet, Hpool |].
      rewrite (pool_events_not_forwarded t Hpool). discriminate.
Qed.

Lemma handler_run_ok p r w :
  GetRetryFromContext r = 0 -> 0 <= GetAttemptsFromContext r <= 3 ->
  run_ok (GetAttemptsFromContext r + 1) (proxy_ErrorHandler p r w).
Proof.
  intros Hret Hatt. unfold proxy_ErrorHandler.
  rewrite ErrorHandler_reroute by lia.
  assert (Hatt' : GetAttemptsFromContext (reroute_request r)
                  = GetAttemptsFromContext r + 1).
  { unfold reroute_request. rewrite GetAttempts_WithValue_Attempt.
    apply IntFacts.int_add_small. unfold Int.is_int.
    rewrite IntFacts.MinInt_eq, IntFacts.MaxInt_eq. lia. }
  assert (Hret' : GetRetryFromContext (reroute_request r) = 0) by exact Hret.
  pose proof (MarkBackendStatus_pool_events (rp_target p) false w) as Hpool.
  unfold bind.
  destruct (MarkBackendStatus (rp_target p) false w) as [t1 [[] w1 | msg]];
    cbn [fst] in Hpool.
  - pose proof (lb_run_ok (reroute_request r) w1 Hret' ltac:(lia)) as [Hq Hf].
    rewrite Hatt' in Hf.
    destruct (lb (reroute_request r) w1) as [t2 o2]. cbn [fst] in *.
    split.
    + apply Forall_app. split; [apply pool_events_quiet, Hpool | exact Hq].
    + intros p' r'. cbn [fst]. pose proof (pool_events_not_forwarded t1 Hpool) as H1.
      unfold forwarded in *. rewrite last_app.
      destruct (last t2) as [e |] eqn:Hlast; [apply Hf |].
      rewrite H1. discriminate.
  - split; cbn [fst]; [apply pool_events_quiet, Hpool |].
    rewrite (pool_events_not_forwarded t1 Hpool). discriminate.
Qed.

Lemma run_ok_weaken a a' x : a <= a' -> run_ok a' x -> run_ok a x.
Proof.
  intros Hle [Hq Hf]. split; [exact Hq |]. intros p r Hfw.
  specialize (Hf p r Hfw). lia.
Qed.

(** Once [n] failures have been handled the request has come to rest. *)
Lemma deliver_bounded fails n : forall fuel k x,
  run_ok (4 - Z.of_nat n) x ->
  deliver (n + fuel) fails k x = deliver n fails k x
  /\ Forall quiet (fst (deliver n fails k x)).
Proof.
  induction n as [| n IH]; intros fuel k x [Hq Hf].
  - cbn [deliver Nat.add]. split; [| exact Hq].
    destruct fuel as [| fuel]; [reflexivity |]. cbn [deliver].
    destruct (snd x) as [[] w | msg]; [| reflexivity].
    destruct (forwarded (fst x)) as [[p r] |] eqn:Hfw; [| reflexivity].
    specialize (Hf p r eq_refl). lia.
  - cbn [deliver Nat.add].
    destruct (snd x) as [[] w | msg]; [| split; [reflexivity | exact Hq]].
    destruct (forwarded (fst x)) as [[p r] |] eqn:Hfw;
      [| split; [reflexivity | exact Hq]].
    destruct (fails k); [| split; [reflexivity | exact Hq]].
    destruct (Hf p r eq_refl) as (Hret & Hatt & Hlow).
    pose proof (handler_run_ok p r w Hret Hatt) as Hy.
    apply (run_ok_weaken (4 - Z.of_nat n)) in Hy; [| lia].
    destruct (IH fuel (S k) _ Hy) as [Heq Hqy].
    rewrite Heq. split; [reflexivity |]. cbn [fst].
    apply Forall_app. split; [exact Hq | exact Hqy].
Qed.

(** X16.  A request that arrives without counters is handed to at most four
    peers: however deliveries fail, every failure marks the peer dead and
    reroutes (the same-peer retry branch, with its delay, is never taken),
    every request handed to a proxy carries retries 0, and after the fourth
    failure [lb] answers 503. *)
Theorem serve_fresh_request (fails : nat -> bool) (r : Request) (w : World) (fuel : nat) :
  GetRetryFromContext r = 0 -> GetAttemptsFromContext r = 0 ->
  serve (4 + fuel) fails r w = serve 4 fails r w
  /\ Forall quiet (fst (serve 4 fails r w)).
Proof.
  intros Hret Hatt. unfold serve. apply deliver_bounded.
  apply (run_ok_weaken _ (GetAttemptsFromContext r)); [cbn; lia |].
  apply lb_run_ok; [exact Hret | lia].
Qed.

Lemma serve_fresh_request_example :
  let w := Demo.world [Demo.A; Demo.B; Demo.C] 0 in
  fst (serve 9 (fun _ => true) Demo.fresh w)
  = [EvAtomicAdd 1; EvIsAlive 1 true;
     EvServeHTTP (ReverseProxy Demo.B) Demo.fresh;
     EvSetAlive 1 false;
     EvAtomicAdd 2; EvIsAlive 2 true;
     EvServeHTTP (ReverseProxy Demo.C) (reroute_request Demo.fresh);
     EvSetAlive 2 false;
     EvAtomicAdd 3; EvIsAlive 0 false; EvIsAlive 1 false; EvIsAlive 2 false;
     EvHttpError "Service Not Available" 503].
Proof. reflexivity. Qed.


(** * Further properties of the code *)

(** ** What the routing path leaves alone *)

Lemma NextIndex_Ok w t next w' :
  NextIndex w = (t, Ok next w') ->
  backends (serverPool w') = backends (serverPool w)
  /\ dials w' = dials w
  /\ currentIndex (serverPool w') = Int.uint64_add (currentIndex (serverPool w)) 1.
Proof.
  unfold NextIndex, atomic_AddUint64, bind, get_pool, put_pool, emit, ret. cbn.
  destruct (Int.to_uint64 _ =? 0); [discriminate |].
  intros [= _ _ <-]. cbn. auto.
Qed.

(** The scan changes nothing but, possibly, the cursor. *)
Lemma GetNextPeer_for_Ok n : forall i next w t r w',
  GetNextPeer_for n i next w = (t, Ok r w') ->
  backends (serverPool w') = backends (serverPool w) /\ dials w' = dials w.
Proof.
  induction n as [| n IH]; intros i next w t r w' H.
  - injection H as _ _ <-. auto.
  - cbn [GetNextPeer_for] in H. rewrite bind_get_pool in H.
    unfold backend_at in H. unfold bind at 1 in H. rewrite bind_get_pool in H.
    destruct (Int.int_rem i (len (serverPool w)) <? 0); [discriminate H |].
    destruct (backends (serverPool w) !! Z.to_nat (Int.int_rem i (len (serverPool w))))
      as [b |] eqn:Hb; [| discriminate H].
    unfold ret at 1 in H. cbn [fst app] in H.
    unfold IsAlive in H. unfold bind at 1 in H. rewrite bind_get_pool, Hb in H.
    unfold bind at 1 in H. unfold emit, ret at 1 in H. cbn [app] in H.
    destruct (Alive b).
    + destruct (negb (i =? next)).
      * unfold atomic_StoreUint64, bind, get_pool, put_pool, emit, ret in H.
        cbn in H. injection H as _ _ <-. cbn. auto.
      * unfold bind, ret in H. cbn in H. injection H as _ _ <-. auto.
    + destruct (GetNextPeer_for n (Int.int_add i 1) next w) as [t0 o0] eqn:Hrec.
      destruct o0 as [r0 w0 | msg]; [| discriminate H].
      injection H as _ _ ->. exact (IH _ _ _ _ _ _ Hrec).
Qed.

Lemma GetNextPeer_Ok w t r w' :
  GetNextPeer w = (t, Ok r w') ->
  backends (serverPool w') = backends (serverPool w) /\ dials w' = dials w.
Proof.
  unfold GetNextPeer. unfold bind at 1.
  destruct (NextIndex w) as [t1 [next w1 | msg]] eqn:HN; [| discriminate].
  rewrite bind_get_pool.
  destruct (GetNextPeer_for _ next next w1) as [t2 o2] eqn:Hfor.
  intros [= _ ->]. apply GetNextPeer_for_Ok in Hfor as [Hbs Hd].
  apply NextIndex_Ok in HN as (Hbs1 & Hd1 & _).
  split; congruence.
Qed.

Lemma lb_Ok r w t w' :
  lb r w = (t, Ok tt w') ->
  backends (serverPool w') = backends (serverPool w) /\ dials w' = dials w.
Proof.
  rewrite lb_unfold. destruct (GetAttemptsFromContext r >? 3).
  - intros [= _ <-]. auto.
  - destruct (GetNextPeer w) as [t0 [[q |] w0 | msg]] eqn:HG; [| | discriminate].
    + destruct (backends (serverPool w0) !! q); [| discriminate].
      intros [= _ <-]. exact (GetNextPeer_Ok _ _ _ _ HG).
    + intros [= _ <-]. exact (GetNextPeer_Ok _ _ _ _ HG).
Qed.

Lemma registry_insert_flag w i b v :
  backends (serverPool w) !! i = Some b ->
  registry (set_backends w (<[i := with_Alive b v]> (backends (serverPool w))))
  = registry w.
Proof.
  intros Hb. unfold registry, set_backends. cbn [serverPool backends].
  change (map ?f ?l) with (f <$> l). rewrite list_fmap_insert. cbn [with_Alive URL ReverseProxy].
  apply list_insert_id. rewrite list_lookup_fmap, Hb. reflexivity.
Qed.

Lemma MarkBackendStatus_Ok u v w t w' :
  MarkBackendStatus u v w = (t, Ok tt w') ->
  registry w' = registry w
  /\ currentIndex (serverPool w') = currentIndex (serverPool w)
  /\ length (backends (serverPool w')) = length (backends (serverPool w))
  /\ dials w' = dials w.
Proof.
  rewrite MarkBackendStatus_run.
  destruct (find_url (backends (serverPool w)) u) as [i |] eqn:Hf.
  - destruct (proj1 (find_url_Some _ _ _) Hf) as [(b & Hb & _) _].
    rewrite (SetAlive_run w i v b Hb). intros [= _ <-].
    split; [apply registry_insert_flag, Hb |]. cbn.
    rewrite length_insert. auto.
  - intros [= _ <-]. auto.
Qed.

Lemma HealthCheck_Ok net w t w' :
  HealthCheck net w = (t, Ok tt w') ->
  registry w' = registry w
  /\ currentIndex (serverPool w') = currentIndex (serverPool w)
  /\ length (backends (serverPool w')) = length (backends (serverPool w)).
Proof.
  pose proof (HealthCheck_run net w) as Hrun. cbn zeta in Hrun. rewrite Hrun.
  intros [= _ <-]. unfold registry. cbn [serverPool backends currentIndex].
  split; [| split; [reflexivity | apply length_imap]].
  change (map ?f ?l) with (f <$> l). rewrite fmap_imap.
  rewrite <- (imap_const (fun b => (URL b, ReverseProxy b))).
  apply imap_ext. intros i b _. reflexivity.
Qed.

Lemma ErrorHandler_Ok serverUrl proxy r w t w' :
  ErrorHandler serverUrl proxy r w = (t, Ok tt w') ->
  registry w' = registry w
  /\ length (backends (serverPool w')) = length (backends (serverPool w))
  /\ dials w' = dials w.
Proof.
  destruct (Z.le_gt_cases (GetRetryFromContext r) 3) as [Hle | Hgt].
  - rewrite (ErrorHandler_reroute _ _ _ _ Hle). unfold bind.
    destruct (MarkBackendStatus serverUrl false w) as [t1 [[] w1 | msg]] eqn:HM;
      [| discriminate].
    destruct (lb (reroute_request r) w1) as [t2 o2] eqn:Hlb.
    intros [= _ ->]. apply MarkBackendStatus_Ok in HM as (Hr & _ & Hl & Hd).
    apply lb_Ok in Hlb as [Hbs Hd2]. unfold registry in *.
    rewrite Hbs. split; [exact Hr |]. split; congruence.
  - unfold ErrorHandler. rewrite Z.gtb_ltb.
    destruct (Z.ltb_spec 3 (GetRetryFromContext r)) as [_ | Hle]; [| lia].
    intros [= _ <-]. auto.
Qed.

Lemma perform_Ok net a w t w' :
  perform net a w = (t, Ok tt w') ->
  registry w' = registry w
  /\ length (backends (serverPool w')) = length (backends (serverPool w)).
Proof.
  assert (Hdrop : forall A (m : M A), (_ <- m ;; ret tt) w = (t, Ok tt w') ->
            exists t0 a0, m w = (t0, Ok a0 w')).
  { intros A m. unfold bind, ret. destruct (m w) as [t0 [a0 w0 | msg]];
      [| discriminate]. cbn. intros [= _ <-]. eauto. }
  destruct a; cbn [perform]; intros H.
  - apply Hdrop in H as (t0 & a0 & H). apply NextIndex_Ok in H as (Hbs & _).
    unfold registry. rewrite Hbs. auto.
  - apply Hdrop in H as (t0 & a0 & H). apply GetNextPeer_Ok in H as (Hbs & _).
    unfold registry. rewrite Hbs. auto.
  - apply MarkBackendStatus_Ok in H. tauto.
  - apply HealthCheck_Ok in H. tauto.
  - apply lb_Ok in H as (Hbs & _). unfold registry. rewrite Hbs. auto.
  - apply ErrorHandler_Ok in H. tauto.
Qed.

(** X1.  While the server runs, nothing adds, removes, reorders or
    re-addresses a backend: after any sequence of [NextIndex],
    [GetNextPeer], [MarkBackendStatus], [HealthCheck], [lb] and error-handler
    runs that returns, the pool holds the same URLs and proxies in the same
    order as before.  Only alive flags and the cursor change. *)
Theorem registry_is_fixed (net : nat -> string -> Z -> bool) (l : list Action)
    (w : World) (t : list Event) (w' : World) :
  perform_all net l w = (t, Ok tt w') ->
  registry w' = registry w
  /\ length (backends (serverPool w')) = length (backends (serverPool w)).
Proof.
  revert w t. induction l as [| a l IH]; intros w t H; cbn [perform_all] in H.
  - injection H as _ <-. auto.
  - unfold bind in H.
    destruct (perform net a w) as [t1 [[] w1 | msg]] eqn:Ha; [| discriminate].
    destruct (perform_all net l w1) as [t2 o2] eqn:Hl.
    injection H as _ ->. apply IH in Hl as [Hr Hn].
    apply perform_Ok in Ha as [Hr1 Hn1]. split; congruence.
Qed.

Lemma registry_is_fixed_witness :
  let net := fun (d : nat) (host : string) (timeout_s : Z) => Nat.even d in
  let w := Demo.world [Demo.A; Demo.B; Demo.C] 0 in
  exists t w',
    perform_all net [ALb Demo.fresh; AHealthCheck;
                     AErrorHandler (URL Demo.C) (ReverseProxy Demo.C) Demo.fresh] w
    = (t, Ok tt w')
    /\ registry w' = registry w.
Proof.
  intros net w.
  destruct (perform_all net [ALb Demo.fresh; AHealthCheck;
                             AErrorHandler (URL Demo.C) (ReverseProxy Demo.C) Demo.fresh] w)
    as [t [[] w' | msg]] eqn:Hrun.
  - exists t, w'. split; [reflexivity |].
    exact (proj1 (registry_is_fixed net _ w t w' Hrun)).
  - vm_compute in Hrun. discriminate Hrun.
Defined.

(** ** No panic on a pool that is not empty *)

Lemma ready_same_size w w' :
  ready w -> Int.is_uint64 (currentIndex (serverPool w')) ->
  length (backends (serverPool w')) = length (backends (serverPool w)) ->
  ready w'.
Proof.
  unfold ready, wf_pool, len. intros [[_ Hmem] Hlen] Hc Hsame.
  rewrite Hsame. auto.
Qed.

Lemma index_is_uint64 s (p : nat) :
  2 * len s <= Int.MaxInt -> (p < length (backends s))%nat ->
  Int.is_uint64 (Z.of_nat p).
Proof.
  unfold Int.is_uint64, len. rewrite IntFacts.MaxInt_eq, IntFacts.modulus_eq. lia.
Qed.

Lemma GetNextPeer_ready w :
  ready w ->
  exists t r w',
    GetNextPeer w = (t, Ok r w') /\ ready w'
    /\ backends (serverPool w') = backends (serverPool w)
    /\ match r with
       | Some q => alive_at (serverPool w) q = Some true
                   /\ currentIndex (serverPool w') mod len (serverPool w) = Z.of_nat q
       | None => forall b, b ∈ backends (serverPool w) -> Alive b = false
       end.
Proof.
  intros [Hwf Hlen]. set (s := serverPool w).
  set (c' := Int.uint64_add (currentIndex s) 1).
  pose proof (IntFacts.uint64_add_range (currentIndex s) 1) as Hc'. fold c' in Hc'.
  pose proof (Z.mod_pos_bound c' (len s) ltac:(unfold s; lia)) as Hnext.
  destruct (GetNextPeer_run w Hwf Hlen) as [[k (Hk & Hka & Hkd & Hrun)] | [Hd Hrun]];
    fold s c' in Hrun.
  - fold s c' in Hka. eexists _, _, _. split; [exact Hrun |].
    assert (Hrot : (rot s (c' mod len s) k < length (backends s))%nat)
      by (apply rot_lt; exact Hlen).
    destruct k as [| k]; cbn [Nat.eqb].
    + split; [apply (ready_same_size w); [split; assumption | exact Hc' | reflexivity] |].
      split; [reflexivity |]. split; [exact Hka |].
      cbn [set_cursor serverPool currentIndex]. unfold rot.
      rewrite Z.add_0_r, Z.mod_mod by (unfold s; lia). fold s. lia.
    + split.
      { apply (ready_same_size w); [split; assumption | | reflexivity].
        apply (index_is_uint64 s); [apply Hwf | exact Hrot]. }
      split; [reflexivity |]. split; [exact Hka |].
      cbn [set_cursor serverPool currentIndex]. fold s.
      apply Z.mod_small. split; [lia |].
      apply (Z.lt_le_trans _ (Z.of_nat (length (backends s)))); [lia | reflexivity].
  - fold s c' in Hd. eexists _, _, _. split; [exact Hrun |].
    split; [apply (ready_same_size w); [split; assumption | exact Hc' | reflexivity] |].
    split; [reflexivity |]. exact (all_slots_dead s _ Hlen Hd).
Qed.

Lemma lb_ready r w :
  ready w -> exists t w', lb r w = (t, Ok tt w') /\ ready w'.
Proof.
  intros Hready. rewrite lb_unfold.
  destruct (GetAttemptsFromContext r >? 3); [eauto |].
  destruct (GetNextPeer_ready w Hready) as (t & q & w' & HG & Hr' & Hbs & Hq).
  rewrite HG. destruct q as [q |]; [| eauto].
  destruct Hq as [Hq _]. unfold alive_at in Hq. rewrite <- Hbs in Hq.
  destruct (backends (serverPool w') !! q) as [b |]; [eauto | discriminate Hq].
Qed.

Lemma MarkBackendStatus_ready u v w :
  ready w -> exists t w', MarkBackendStatus u v w = (t, Ok tt w') /\ ready w'.
Proof.
  intros Hready. destruct (MarkBackendStatus_run_total u v w) as (t & w' & Hrun).
  exists t, w'. split; [exact Hrun |].
  apply MarkBackendStatus_Ok in Hrun as (_ & Hc & Hl & _).
  apply (ready_same_size w); [exact Hready | rewrite Hc; apply Hready | exact Hl].
Qed.

Lemma ErrorHandler_ready serverUrl proxy r w :
  ready w -> exists t w', ErrorHandler serverUrl proxy r w = (t, Ok tt w') /\ ready w'.
Proof.
  intros Hready. destruct (Z.le_gt_cases (GetRetryFromContext r) 3) as [Hle | Hgt].
  - rewrite (ErrorHandler_reroute _ _ _ _ Hle). unfold bind.
    destruct (MarkBackendStatus_ready serverUrl false w Hready) as (t1 & w1 & HM & H1).
    rewrite HM.
    destruct (lb_ready (reroute_request r) w1 H1) as (t2 & w2 & Hlb & H2).
    rewrite Hlb. eauto.
  - unfold ErrorHandler. rewrite Z.gtb_ltb.
    destruct (Z.ltb_spec 3 (GetRetryFromContext r)) as [_ | Hle]; [| lia].
    eexists _, _. split; [reflexivity | exact Hready].
Qed.

Lemma perform_ready net a w :
  ready w -> exists t w', perform net a w = (t, Ok tt w') /\ ready w'.
Proof.
  intros Hready. destruct a; cbn [perform].
  - destruct Hready as [Hwf Hlen].
    pose proof (NextIndex_run w Hwf Hlen) as HN. cbn zeta in HN.
    unfold bind, ret. rewrite HN. eexists _, _. split; [reflexivity |].
    apply (ready_same_size w); [split; assumption | | reflexivity].
    apply IntFacts.uint64_add_range.
  - destruct (GetNextPeer_ready w Hready) as (t & q & w' & HG & Hr' & _).
    unfold bind, ret. rewrite HG. eauto.
  - apply MarkBackendStatus_ready, Hready.
  - pose proof (HealthCheck_run net w) as Hrun. cbn zeta in Hrun.
    eexists _, _. split; [exact Hrun |].
    apply (ready_same_size w); [exact Hready | apply Hready | apply length_imap].
  - apply lb_ready, Hready.
  - apply ErrorHandler_ready, Hready.
Qed.

(** X2.  On a pool that is not empty (with the cursor a [uint64] and the
    slice small enough for [next + len] not to overflow) no sequence of
    [NextIndex], [GetNextPeer], [MarkBackendStatus], [HealthCheck], [lb] and
    error-handler runs panics, and the pool is again such a pool
    afterwards: no index is out of range and no division is by zero. *)
Theorem ready_pool_never_panics (net : nat -> string -> Z -> bool) (l : list Action)
    (w : World) :
  ready w ->
  exists t w', perform_all net l w = (t, Ok tt w') /\ ready w'.
Proof.
  revert w. induction l as [| a l IH]; intros w Hready; cbn [perform_all].
  - eexists _, _. split; [reflexivity | exact Hready].
  - destruct (perform_ready net a w Hready) as (t1 & w1 & Ha & H1).
    destruct (IH w1 H1) as (t2 & w2 & Hl & H2).
    unfold bind. rewrite Ha, Hl. eauto.
Qed.

Lemma ready_pool_never_panics_witness :
  let net := fun (d : nat) (host : string) (timeout_s : Z) => Nat.even d in
  let w := Demo.world [Demo.A; Demo.B; Demo.C] 18446744073709551615 in
  exists t w',
    perform_all net [AGetNextPeer; AHealthCheck; ALb Demo.fresh] w = (t, Ok tt w')
    /\ ready w'.
Proof.
  intros net w. apply ready_pool_never_panics.
  split; [concrete_wf | unfold len; cbn; lia].
Defined.

(** ** The empty pool *)

(** X3.  On a pool without backends [NextIndex] panics with a division by
    zero, after it has incremented the cursor, and so do [GetNextPeer] and
    [lb] for a request with at most 3 attempts; [lb] still answers 503 to a
    request with more than 3 attempts, and [MarkBackendStatus] and
    [HealthCheck] do nothing. *)
Theorem empty_pool (net : nat -> string -> Z -> bool) (u : url_URL) (v : bool)
    (r : Request) (w : World) :
  backends (serverPool w) = [] ->
  let c' := Int.uint64_add (currentIndex (serverPool w)) 1 in
  NextIndex w = ([EvAtomicAdd c'], Panic "integer divide by zero")
  /\ GetNextPeer w = ([EvAtomicAdd c'], Panic "integer divide by zero")
  /\ (GetAttemptsFromContext r <= 3 ->
      lb r w = ([EvAtomicAdd c'], Panic "integer divide by zero"))
  /\ (GetAttemptsFromContext r > 3 ->
      lb r w = ([EvHttpError "Service not available" 503], Ok tt w))
  /\ MarkBackendStatus u v w = ([], Ok tt w)
  /\ HealthCheck net w = ([], Ok tt w).
Proof.
  destruct w as [[bs c] d]. cbn [serverPool backends currentIndex]. intros ->.
  set (c' := Int.uint64_add c 1).
  assert (HN : NextIndex {| serverPool := {| backends := []; currentIndex := c |};
                            dials := d |}
               = ([EvAtomicAdd c'], Panic "integer divide by zero")) by reflexivity.
  assert (HG : GetNextPeer {| serverPool := {| backends := []; currentIndex := c |};
                              dials := d |}
               = ([EvAtomicAdd c'], Panic "integer divide by zero")).
  { unfold GetNextPeer, bind. rewrite HN. reflexivity. }
  split; [exact HN |]. split; [exact HG |].
  split; [| split; [| split; reflexivity]].
  - intros Hle. rewrite lb_unfold, Z.gtb_ltb.
    destruct (Z.ltb_spec 3 (GetAttemptsFromContext r)) as [Hgt | _]; [lia |].
    rewrite HG. reflexivity.
  - intros Hgt. rewrite lb_unfold, Z.gtb_ltb.
    destruct (Z.ltb_spec 3 (GetAttemptsFromContext r)) as [_ | Hle]; [reflexivity | lia].
Qed.

Lemma empty_pool_witness :
  lb Demo.fresh (Demo.world [] 7) = ([EvAtomicAdd 8], Panic "integer divide by zero")
  /\ lb (Demo.attempted 4) (Demo.world [] 7)
     = ([EvHttpError "Service not available" 503], Ok tt (Demo.world [] 7)).
Proof.
  destruct (empty_pool (fun _ _ _ => true) (Demo.url "a:3031") false Demo.fresh
              (Demo.world [] 7) eq_refl) as (_ & _ & Hlow & _).
  destruct (empty_pool (fun _ _ _ => true) (Demo.url "a:3031") false (Demo.attempted 4)
              (Demo.world [] 7) eq_refl) as (_ & _ & _ & Hhigh & _).
  split; [apply Hlow; cbn; lia | apply Hhigh; cbn; lia].
Defined.

(** ** The alive flag *)

(** X4.  What [SetAlive] writes is what [IsAlive] then reads, on the same
    backend; the write changes no other backend, nor the URL or proxy of
    this one, nor the cursor. *)
Theorem SetAlive_then_IsAlive (idx : nat) (v : bool) (w : World) (b : Backend) :
  backends (serverPool w) !! idx = Some b ->
  exists w',
    SetAlive idx v w = ([EvSetAlive idx v], Ok tt w')
    /\ IsAlive idx w' = ([EvIsAlive idx v], Ok v w')
    /\ (SetAlive idx v ;; IsAlive idx) w = ([EvSetAlive idx v; EvIsAlive idx v], Ok v w')
    /\ backends (serverPool w') !! idx
       = Some {| URL := URL b; Alive := v; ReverseProxy := ReverseProxy b |}
    /\ (forall j, j <> idx -> backends (serverPool w') !! j = backends (serverPool w) !! j)
    /\ currentIndex (serverPool w') = currentIndex (serverPool w).
Proof.
  intros Hb. pose proof (SetAlive_run w idx v b Hb) as Hset.
  set (w' := set_backends w _) in Hset. exists w'.
  assert (Hb' : backends (serverPool w') !! idx = Some (with_Alive b v)).
  { apply list_lookup_insert_eq. eapply lookup_lt_Some, Hb. }
  assert (His : IsAlive idx w' = ([EvIsAlive idx v], Ok v w')).
  { unfold IsAlive. rewrite bind_get_pool, Hb'. reflexivity. }
  split; [exact Hset |]. split; [exact His |].
  split; [unfold bind; rewrite Hset, His; reflexivity |].
  split; [exact Hb' |]. split; [| reflexivity].
  intros j Hj. apply list_lookup_insert_ne. congruence.
Qed.

Lemma SetAlive_then_IsAlive_witness :
  returned ((SetAlive 0 true ;; IsAlive 0) (Demo.world [Demo.A; Demo.B] 3)) = Some true.
Proof.
  destruct (SetAlive_then_IsAlive 0 true (Demo.world [Demo.A; Demo.B] 3) Demo.A eq_refl)
    as (w' & _ & _ & Hboth & _).
  rewrite Hboth. reflexivity.
Defined.

(** ** Status updates, one after the other *)

Lemma final_bind {A B} (m : M A) (k : M B) w :
  final ((m ;; k) w)
  = match final (m w) with Some w1 => final (k w1) | None => None end.
Proof.
  unfold final, bind. destruct (m w) as [t [a w1 | msg]]; [| reflexivity].
  cbn [snd]. destruct (k w1) as [t' o]. reflexivity.
Qed.

(** The slice after [MarkBackendStatus(u, v)]. *)
Lemma MarkBackendStatus_final u v w :
  final (MarkBackendStatus u v w)
  = Some (set_backends w
            match find_url (backends (serverPool w)) u with
            | Some i => alter (fun b => with_Alive b v) i (backends (serverPool w))
            | None => backends (serverPool w)
            end).
Proof.
  rewrite MarkBackendStatus_run.
  destruct (find_url (backends (serverPool w)) u) as [i |] eqn:Hf.
  - destruct (proj1 (find_url_Some _ _ _) Hf) as [(b & Hb & _) _].
    rewrite (SetAlive_run w i v b Hb). unfold final. cbn [snd]. f_equal. f_equal.
    rewrite list_insert_alter. apply list_alter_ext; [| reflexivity].
    intros x Hx. congruence.
  - unfold final. cbn [snd]. destruct w as [[bs c] d]. reflexivity.
Qed.

Lemma find_url_alter (bs : list Backend) u (i : nat) v :
  find_url (alter (fun b => with_Alive b v) i bs) u = find_url bs u.
Proof.
  revert i. induction bs as [| b0 bs IH]; intros i; [reflexivity |].
  destruct i as [| i]; cbn; [reflexivity |].
  destruct (String.eqb (URL_String (URL b0)) (URL_String u)); [reflexivity |].
  f_equal. apply IH.
Qed.

Lemma alter_flag_twice (bs : list Backend) (i : nat) a b :
  alter (fun x => with_Alive x b) i (alter (fun x => with_Alive x a) i bs)
  = alter (fun x => with_Alive x b) i bs.
Proof.
  revert i. induction bs as [| b0 bs IH]; intros [| i]; cbn; try reflexivity.
  f_equal. apply IH.
Qed.

Lemma alter_flag_commute (bs : list Backend) (i j : nat) a b :
  i <> j ->
  alter (fun x => with_Alive x b) j (alter (fun x => with_Alive x a) i bs)
  = alter (fun x => with_Alive x a) i (alter (fun x => with_Alive x b) j bs).
Proof.
  revert i j. induction bs as [| b0 bs IH]; intros [| i] [| j] Hne; cbn;
    try reflexivity; [contradiction |].
  f_equal. apply IH. congruence.
Qed.

(** X5.  Status updates compose as writes to one flag each.  Two updates
    for the same address leave the pool as the second alone does (the last
    write wins), and updates for addresses that print differently commute. *)
Theorem MarkBackendStatus_composes (u u' : url_URL) (a b : bool) (w : World) :
  final ((MarkBackendStatus u a ;; MarkBackendStatus u b) w)
    = final (MarkBackendStatus u b w)
  /\ (URL_String u <> URL_String u' ->
      final ((MarkBackendStatus u a ;; MarkBackendStatus u' b) w)
      = final ((MarkBackendStatus u' b ;; MarkBackendStatus u a) w)).
Proof.
  split.
  - rewrite final_bind, !MarkBackendStatus_final.
    destruct (find_url (backends (serverPool w)) u) as [i |] eqn:Hf;
      cbn [set_backends serverPool backends].
    + rewrite find_url_alter, Hf, alter_flag_twice. reflexivity.
    + rewrite Hf. reflexivity.
  - intros Hne. rewrite !final_bind, !MarkBackendStatus_final.
    cbn [set_backends serverPool backends currentIndex dials].
    destruct (find_url (backends (serverPool w)) u) as [i |] eqn:Hi;
      destruct (find_url (backends (serverPool w)) u') as [j |] eqn:Hj;
      rewrite ?find_url_alter, ?Hi, ?Hj; try reflexivity.
    destruct (proj1 (find_url_Some _ _ _) Hi) as [(bi & Hbi & Hui) _].
    destruct (proj1 (find_url_Some _ _ _) Hj) as [(bj & Hbj & Huj) _].
    assert (Hij : i <> j).
    { intros ->. unfold same_url in *. congruence. }
    rewrite (alter_flag_commute _ i j a b Hij). reflexivity.
Qed.

Lemma MarkBackendStatus_composes_witness :
  let w := Demo.world [Demo.A; Demo.B; Demo.C] 0 in
  final ((MarkBackendStatus (URL Demo.A) true ;; MarkBackendStatus (URL Demo.B) false) w)
  = Some (Demo.world [Demo.backend 0 "a:3031" true; Demo.backend 1 "b:3032" false;
                      Demo.C] 0)
  /\ final ((MarkBackendStatus (URL Demo.B) false ;; MarkBackendStatus (URL Demo.A) true) w)
  = Some (Demo.world [Demo.backend 0 "a:3031" true; Demo.backend 1 "b:3032" false;
                      Demo.C] 0).
Proof.
  intros w.
  destruct (MarkBackendStatus_composes (URL Demo.A) (URL Demo.B) true false w)
    as [_ Hcomm].
  rewrite <- Hcomm; [split; reflexivity |]. cbn. discriminate.
Defined.


(** ** What [main] registers *)

Section MainRegisters.

Variable url_Parse : string -> url_URL + string.

Lemma strings_Split_length s sep :
  length (strings_Split s sep) = S (strings_Count s sep).
Proof.
  induction s as [| c s IH]; [reflexivity |]. cbn.
  destruct (Ascii.eqb c sep); cbn; [rewrite IH; reflexivity |].
  destruct (strings_Split s sep) as [| tok toks]; cbn in *; [discriminate IH | exact IH].
Qed.

Lemma imap_registered_shift n (us : list url_URL) :
  imap (registered (S n)) us = imap (registered n ∘ S) us.
Proof.
  apply imap_ext. intros i u _. unfold registered, compose.
  replace (S n + i)%nat with (n + S i)%nat by lia. reflexivity.
Qed.

Lemma main_range_inl : forall urls s s',
  main_range url_Parse urls s = inl s' ->
  exists us,
    Forall2 (fun tok u => url_Parse tok = inl u) urls us
    /\ s' = {| backends := backends s ++ imap (registered (length (backends s))) us;
               currentIndex := currentIndex s |}.
Proof.
  induction urls as [| tok urls IH]; intros s s' H; cbn in H.
  - injection H as <-. exists []. split; [constructor |].
    cbn. rewrite app_nil_r. destruct s. reflexivity.
  - destruct (url_Parse tok) as [u | err] eqn:Hu; [| discriminate H].
    apply IH in H as (us & Hus & ->). exists (u :: us).
    split; [constructor; assumption |].
    unfold AddBackend, NewSingleHostReverseProxy. cbn [backends currentIndex].
    rewrite length_app. cbn [length].
    replace (length (backends s) + 1)%nat with (S (length (backends s))) by lia.
    rewrite imap_registered_shift, <- app_assoc. cbn [app imap].
    unfold registered at 2. rewrite Nat.add_0_r. reflexivity.
Qed.

Lemma main_range_inr : forall urls s err s',
  main_range url_Parse urls s = inr (err, s') ->
  exists pre tok post us,
    urls = pre ++ tok :: post
    /\ Forall2 (fun tok u => url_Parse tok = inl u) pre us
    /\ url_Parse tok = inr err
    /\ s' = {| backends := backends s ++ imap (registered (length (backends s))) us;
               currentIndex := currentIndex s |}.
Proof.
  induction urls as [| tok urls IH]; intros s err s' H; cbn in H; [discriminate H |].
  destruct (url_Parse tok) as [u | err0] eqn:Hu.
  - apply IH in H as (pre & tok' & post & us & -> & Hus & Htok & ->).
    exists (tok :: pre), tok', post, (u :: us).
    split; [reflexivity |]. split; [constructor; assumption |]. split; [exact Htok |].
    unfold AddBackend, NewSingleHostReverseProxy. cbn [backends currentIndex].
    rewrite length_app. cbn [length].
    replace (length (backends s) + 1)%nat with (S (length (backends s))) by lia.
    rewrite imap_registered_shift, <- app_assoc. cbn [app imap].
    unfold registered at 2. rewrite Nat.add_0_r. reflexivity.
  - injection H as <- <-. exists [], tok, urls, [].
    split; [reflexivity |]. split; [constructor |]. split; [exact Hu |].
    cbn. rewrite app_nil_r. destruct s. reflexivity.
Qed.

(** X6.  When [main] starts the server, the list was not empty, every
    comma-separated token of it was accepted by [url.Parse], and the pool
    holds exactly one backend per token, in the order of the list (one more
    than the list has commas), each alive, each with a proxy of its own that
    targets the backend's own URL; the cursor is 0 and the port is the
    configured one. *)
Theorem main_registers_in_order (serverList : string) (port port' : Z) (s : ServerPool) :
  main url_Parse serverList port = ListenAndServe port' s ->
  port' = port
  /\ serverList <> EmptyString
  /\ length (backends s) = S (strings_Count serverList comma)
  /\ exists us,
       Forall2 (fun tok u => url_Parse tok = inl u) (strings_Split serverList comma) us
       /\ s = {| backends := imap (registered 0) us; currentIndex := 0 |}
       /\ forall i b, backends s !! i = Some b ->
            Alive b = true
            /\ rp_id (ReverseProxy b) = i
            /\ rp_target (ReverseProxy b) = URL b.
Proof.
  unfold main. destruct serverList as [| c rest]; [discriminate |].
  change (Z.of_nat (String.length (String c rest)) =? 0) with false. cbv iota.
  destruct (main_range url_Parse (strings_Split (String c rest) comma) serverPool_zero)
    as [s0 | [err s0]] eqn:Hrange; [| discriminate].
  intros [= <- <-]. apply main_range_inl in Hrange as (us & Hus & ->).
  cbn [serverPool_zero backends currentIndex app length].
  split; [reflexivity |]. split; [discriminate |].
  split.
  { rewrite length_imap, <- (Forall2_length _ _ _ Hus). apply strings_Split_length. }
  exists us. split; [exact Hus |]. split; [reflexivity |].
  intros i b Hb. apply list_lookup_imap_Some in Hb as (u & _ & ->).
  unfold registered. cbn. auto.
Qed.

(** X7.  [main], followed to its last line, ends in [log.Fatal] in three
    ways only: the list is empty (and nothing was registered); or some token
    is rejected by [url.Parse], and then the error reported is that of the
    first rejected token, only the tokens before it had been registered and
    the server was not started; or every token was registered, the server
    was started and [ListenAndServe] returned an error, which is the one
    reported. *)
Theorem main_fatal (http_ListenAndServe : Z -> option (option string))
    (serverList : string) (port : Z) (msg : string) :
  main_exit url_Parse http_ListenAndServe serverList port = ExitFatal msg ->
  (serverList = EmptyString
   /\ msg = "Please provide one or more backends to load balance"
   /\ main url_Parse serverList port = Fatal msg serverPool_zero)
  \/ (exists pre tok post us,
        strings_Split serverList comma = pre ++ tok :: post
        /\ Forall2 (fun tok u => url_Parse tok = inl u) pre us
        /\ url_Parse tok = inr msg
        /\ main url_Parse serverList port
           = Fatal msg {| backends := imap (registered 0) us; currentIndex := 0 |})
  \/ (exists us,
        serverList <> EmptyString
        /\ Forall2 (fun tok u => url_Parse tok = inl u) (strings_Split serverList comma) us
        /\ main url_Parse serverList port
           = ListenAndServe port {| backends := imap (registered 0) us; currentIndex := 0 |}
        /\ http_ListenAndServe port = Some (Some msg)).
Proof.
  unfold main_exit.
  destruct (main url_Parse serverList port) as [m s | port' s] eqn:Hmain.
  - intros [= ->]. pose proof Hmain as Hm. unfold main in Hm.
    destruct serverList as [| c rest].
    + injection Hm as <- <-. left. auto.
    + change (Z.of_nat (String.length (String c rest)) =? 0) with false in Hm.
      cbv iota in Hm.
      destruct (main_range url_Parse (strings_Split (String c rest) comma) serverPool_zero)
        as [s0 | [err s0]] eqn:Hrange; [discriminate Hm |].
      injection Hm as -> ->. right. left.
      apply main_range_inr in Hrange as (pre & tok & post & us & Hsplit & Hus & Htok & Hs).
      cbn [serverPool_zero backends currentIndex app length] in Hs. subst s.
      exists pre, tok, post, us. auto.
  - destruct (http_ListenAndServe port') as [[err |] |] eqn:Hlisten; try discriminate.
    intros [= ->]. pose proof Hmain as Hm. unfold main in Hm.
    destruct serverList as [| c rest]; [discriminate Hm |].
    change (Z.of_nat (String.length (String c rest)) =? 0) with false in Hm.
    cbv iota in Hm.
    destruct (main_range url_Parse (strings_Split (String c rest) comma) serverPool_zero)
      as [s0 | [err s0]] eqn:Hrange; [| discriminate Hm].
    injection Hm as -> ->. right. right.
    apply main_range_inl in Hrange as (us & Hus & Hs).
    cbn [serverPool_zero backends currentIndex app length] in Hs. subst s.
    exists us. split; [discriminate |]. auto.
Qed.

End MainRegisters.

Lemma main_registers_in_order_witness :
  let s := {| backends := [Demo.backend 0 "a:3031" true; Demo.backend 1 "b:3032" true];
              currentIndex := 0 |} in
  length (backends s) = S (strings_Count "a:3031,b:3032" comma)
  /\ exists us,
       Forall2 (fun tok u => Demo.parse tok = inl u)
               (strings_Split "a:3031,b:3032" comma) us
       /\ s = {| backends := imap (registered 0) us; currentIndex := 0 |}.
Proof.
  intros s.
  destruct (main_registers_in_order Demo.parse "a:3031,b:3032" 3030 3030 s eq_refl)
    as (_ & _ & Hlen & us & Hus & Hs & _).
  split; [exact Hlen |]. exists us. split; [exact Hus | exact Hs].
Defined.

Lemma main_fatal_witness :
  (exists pre tok post us,
     strings_Split "a:3031,,c:3033" comma = pre ++ tok :: post
     /\ Forall2 (fun tok u => strict_parse tok = inl u) pre us
     /\ strict_parse tok = inr "empty url"
     /\ main strict_parse "a:3031,,c:3033" 3030
        = Fatal "empty url" {| backends := imap (registered 0) us; currentIndex := 0 |})
  /\ (exists us,
        Forall2 (fun tok u => Demo.parse tok = inl u)
                (strings_Split "a:3031,b:3032" comma) us
        /\ main Demo.parse "a:3031,b:3032" 3030
           = ListenAndServe 3030
               {| backends := imap (registered 0) us; currentIndex := 0 |}).
Proof.
  split.
  - destruct (main_fatal strict_parse (fun _ => None) "a:3031,,c:3033" 3030
                "empty url" eq_refl)
      as [(Hempty & _) | [H | (us & _ & _ & _ & Hlisten)]].
    + discriminate Hempty.
    + exact H.
    + discriminate Hlisten.
  - destruct (main_fatal Demo.parse
                (fun _ => Some (Some "listen tcp :3030: bind: address already in use"))
                "a:3031,b:3032" 3030
                "listen tcp :3030: bind: address already in use" eq_refl)
      as [(Hempty & _) | [(pre & tok & post & us & _ & _ & Htok & _)
                         | (us & _ & Hus & Hmain & _)]].
    + discriminate Hempty.
    + unfold Demo.parse in Htok. discriminate Htok.
    + exists us. split; [exact Hus | exact Hmain].
Defined.

(** ** Rotation *)

(** X8.  After [GetNextPeer] has returned a backend, the cursor is congruent
    to that backend's position modulo [len(backends)], whether or not dead
    backends were skipped.  So, unless the cursor is at 2^64 - 1, the next
    call scans from the position after the backend just used: with the alive
    flags unchanged it returns the next alive backend in cyclic order. *)
Theorem GetNextPeer_continues (w : World) (t : list Event) (p : nat) (w' : World) :
  ready w ->
  GetNextPeer w = (t, Ok (Some p) w') ->
  let s := serverPool w in
  currentIndex (serverPool w') mod len s = Z.of_nat p
  /\ backends (serverPool w') = backends s
  /\ (currentIndex (serverPool w') + 1 < Int.uint64_modulus ->
      forall t2 q w2,
        GetNextPeer w' = (t2, Ok (Some q) w2) ->
        exists k, (k < length (backends s))%nat
          /\ q = rot s (Z.of_nat p + 1) k
          /\ alive_at s q = Some true
          /\ (forall j, (j < k)%nat -> alive_at s (rot s (Z.of_nat p + 1) j) = Some false)).
Proof.
  intros Hready Hrun s.
  destruct (GetNextPeer_ready w Hready) as (t0 & r0 & w0 & Hrun0 & Hready' & Hbs & Hr0).
  rewrite Hrun in Hrun0. injection Hrun0 as <- <- <-.
  destruct Hr0 as [_ Hcur]. fold s in Hcur, Hbs.
  split; [exact Hcur |]. split; [exact Hbs |].
  intros Hnowrap t2 q w2 Hrun2.
  destruct Hready' as [Hwf' Hlen'].
  assert (Hs' : serverPool w' = {| backends := backends s;
                                   currentIndex := currentIndex (serverPool w') |}).
  { destruct (serverPool w') as [bs' c']. cbn in Hbs. subst bs'. reflexivity. }
  assert (Hlen_eq : len (serverPool w') = len s) by (unfold len; rewrite Hbs; reflexivity).
  destruct (GetNextPeer_run w' Hwf' Hlen') as [[k (Hk & Hka & Hkd & Hrun')] | [_ Hrun']];
    rewrite Hrun2 in Hrun'; [| discriminate Hrun'].
  injection Hrun' as _ Hq _.
  set (c := currentIndex (serverPool w')) in *.
  assert (Hc : Int.uint64_add c 1 = c + 1).
  { apply IntFacts.uint64_add_small. destruct Hwf' as [[Hc0 _] _]. fold c in Hc0. lia. }
  assert (Hrot : forall j, rot (serverPool w') (Int.uint64_add c 1 mod len (serverPool w')) j
                           = rot s (Z.of_nat p + 1) j).
  { intros j. unfold rot. rewrite Hlen_eq, Hc. f_equal.
    rewrite Zplus_mod_idemp_l. rewrite <- Hcur.
    replace (c + 1 + Z.of_nat j) with (c + (1 + Z.of_nat j)) by lia.
    replace (c mod len s + 1 + Z.of_nat j) with (c mod len s + (1 + Z.of_nat j)) by lia.
    rewrite Zplus_mod_idemp_l. reflexivity. }
  assert (Halive : forall i, alive_at (serverPool w') i = alive_at s i).
  { intros i. unfold alive_at. rewrite Hbs. reflexivity. }
  exists k. rewrite Hbs in Hk. split; [exact Hk |].
  rewrite Hrot in Hq, Hka. rewrite Halive in Hka.
  split; [exact Hq |]. split; [rewrite Hq; exact Hka |].
  intros j Hj. specialize (Hkd j Hj). rewrite Hrot, Halive in Hkd. exact Hkd.
Qed.

Lemma GetNextPeer_continues_witness :
  let w := Demo.world [Demo.A; Demo.B; Demo.C] 5 in
  let w' := set_cursor w 1 in
  currentIndex (serverPool w') mod len (serverPool w) = 1
  /\ exists k, (k < 3)%nat /\ 2%nat = rot (serverPool w) (1 + 1) k.
Proof.
  intros w w'.
  assert (Hready : ready w) by (split; [concrete_wf | unfold len; cbn; lia]).
  destruct (GetNextPeer_continues w
              [EvAtomicAdd 6; EvIsAlive 0 false; EvIsAlive 1 true; EvAtomicStore 1]
              1 w' Hready eq_refl) as (Hcur & _ & Hnext).
  split; [exact Hcur |].
  destruct (Hnext ltac:(cbn; rewrite IntFacts.modulus_eq; lia)
              [EvAtomicAdd 2; EvIsAlive 2 true] 2%nat (set_cursor w 2) eq_refl)
    as (k & Hk & Hq & _).
  exists k. split; [exact Hk | exact Hq].
Defined.

(** X9.  When exactly one backend is alive, [GetNextPeer] returns it,
    wherever the cursor stands. *)
Theorem only_alive_backend_is_returned (w : World) (j : nat) :
  ready w ->
  alive_at (serverPool w) j = Some true ->
  (forall i, i <> j -> (i < length (backends (serverPool w)))%nat ->
             alive_at (serverPool w) i = Some false) ->
  returned (GetNextPeer w) = Some (Some j).
Proof.
  intros Hready Hj Hothers.
  destruct (GetNextPeer_ready w Hready) as (t & r & w' & Hrun & _ & _ & Hr).
  rewrite Hrun. unfold returned. cbn [snd]. f_equal.
  destruct r as [q |].
  - destruct Hr as [Hq _]. f_equal.
    destruct (Nat.eq_dec q j) as [-> | Hne]; [reflexivity |].
    assert (Hlt : (q < length (backends (serverPool w)))%nat).
    { unfold alive_at in Hq. apply lookup_lt_is_Some.
      destruct (backends (serverPool w) !! q); [eauto | discriminate Hq]. }
    rewrite (Hothers q Hne Hlt) in Hq. discriminate Hq.
  - destruct (alive_at_true_elem _ _ Hj) as (b & Hb & Hal).
    rewrite (Hr b Hb) in Hal. discriminate Hal.
Qed.

Lemma only_alive_backend_is_returned_witness :
  returned (GetNextPeer
              (Demo.world [Demo.A; Demo.backend 1 "b:3032" false; Demo.C] 12))
  = Some (Some 2%nat).
Proof.
  apply only_alive_backend_is_returned.
  - split; [concrete_wf | unfold len; cbn; lia].
  - reflexivity.
  - intros [| [| [| i]]] Hne Hlt; try reflexivity; [contradiction | cbn in Hlt; lia].
Defined.

Lemma mod_window_inj (c n a b : Z) :
  0 < n -> 0 <= a < n -> 0 <= b < n -> (c + a) mod n = (c + b) mod n -> a = b.
Proof.
  intros Hn Ha Hb Heq.
  pose proof (Z.div_mod (c + a) n ltac:(lia)) as H1.
  pose proof (Z.div_mod (c + b) n ltac:(lia)) as H2.
  rewrite Heq in H1.
  assert (Hd : a - b = n * ((c + a) / n - (c + b) / n)) by lia.
  assert (Hz : (c + a) / n - (c + b) / n = 0) by nia.
  rewrite Hz in Hd. lia.
Qed.

(** X10.  With every backend alive and the cursor not about to wrap, as many
    successive [GetNextPeer] calls as there are backends return every
    backend exactly once. *)
Theorem round_robin_is_fair (w : World) :
  ready w ->
  (forall b, b ∈ backends (serverPool w) -> Alive b = true) ->
  currentIndex (serverPool w) + len (serverPool w) < Int.uint64_modulus ->
  let n := length (backends (serverPool w)) in
  exists rs,
    returned (times n GetNextPeer w) = Some rs
    /\ rs ≡ₚ map Some (seq 0 n).
Proof.
  intros [Hwf Hlen] Hall Hnowrap n.
  pose proof (GetNextPeer_times_all_alive n w Hwf Hlen Hall) as Hrun.
  set (c := currentIndex (serverPool w)) in *. set (l := len (serverPool w)) in *.
  assert (Hl : l = Z.of_nat n) by reflexivity.
  assert (Hc0 : 0 <= c) by (destruct Hwf as [[H0 _] _]; exact H0).
  eexists. split; [exact Hrun |].
  assert (Hsimpl :
    map (fun k : nat => Some (Z.to_nat (((c + Z.of_nat k) mod Int.uint64_modulus) mod l)))
        (seq 1 n)
    = map (fun k : nat => Some (Z.to_nat ((c + Z.of_nat k) mod l))) (seq 1 n)).
  { apply list_fmap_ext. intros i k Hk. apply lookup_seq in Hk as [-> Hi].
    rewrite (Z.mod_small (c + _)) by lia. reflexivity. }
  rewrite Hsimpl. apply NoDup_Permutation.
  - apply NoDup_fmap_2_strong; [| apply NoDup_seq].
    intros k1 k2 H1 H2 Heq. apply elem_of_seq in H1, H2. injection Heq as Heq.
    pose proof (Z.mod_pos_bound (c + Z.of_nat k1) l ltac:(lia)).
    pose proof (Z.mod_pos_bound (c + Z.of_nat k2) l ltac:(lia)).
    assert (Hz : (c + 1 + (Z.of_nat k1 - 1)) mod l = (c + 1 + (Z.of_nat k2 - 1)) mod l).
    { replace (c + 1 + (Z.of_nat k1 - 1)) with (c + Z.of_nat k1) by lia.
      replace (c + 1 + (Z.of_nat k2 - 1)) with (c + Z.of_nat k2) by lia. lia. }
    apply mod_window_inj in Hz; lia.
  - apply NoDup_fmap_2; [intros x y [= ->]; reflexivity | apply NoDup_seq].
  - intros x. rewrite !list_elem_of_fmap. split.
    + intros (k & -> & Hk). apply elem_of_seq in Hk.
      pose proof (Z.mod_pos_bound (c + Z.of_nat k) l ltac:(lia)).
      exists (Z.to_nat ((c + Z.of_nat k) mod l)). split; [reflexivity |].
      apply elem_of_seq. lia.
    + intros (j & -> & Hj). apply elem_of_seq in Hj.
      pose proof (Z.mod_pos_bound (Z.of_nat j - c - 1) l ltac:(lia)) as Hb.
      exists (S (Z.to_nat ((Z.of_nat j - c - 1) mod l))). split.
      * f_equal.
        replace (c + Z.of_nat (S (Z.to_nat ((Z.of_nat j - c - 1) mod l))))
          with (c + 1 + (Z.of_nat j - c - 1) mod l) by lia.
        rewrite Zplus_mod_idemp_r.
        replace (c + 1 + (Z.of_nat j - c - 1)) with (Z.of_nat j) by lia.
        rewrite Z.mod_small by lia. lia.
      * apply elem_of_seq. lia.
Qed.

Lemma round_robin_is_fair_witness :
  exists rs,
    returned (times 3 GetNextPeer
                (Demo.world [Demo.backend 0 "a:3031" true; Demo.B; Demo.C] 7))
    = Some rs
    /\ rs ≡ₚ [Some 0%nat; Some 1%nat; Some 2%nat].
Proof.
  apply (round_robin_is_fair
           (Demo.world [Demo.backend 0 "a:3031" true; Demo.B; Demo.C] 7)).
  - split; [concrete_wf | unfold len; cbn; lia].
  - intros b Hb.
    repeat (apply elem_of_cons in Hb as [-> | Hb]; [reflexivity |]). inversion Hb.
  - unfold len. cbn. rewrite IntFacts.modulus_eq. lia.
Defined.

(** ** Probing, then routing *)

(** X11.  Right after a health-check pass, [GetNextPeer] returns only a
    backend whose probe in that pass succeeded, and returns nil only when
    every probe of the pass failed. *)
Theorem after_pass_only_probed_alive (net : nat -> string -> Z -> bool) (w : World) :
  ready w ->
  exists t1 w1,
    HealthCheck net w = (t1, Ok tt w1)
    /\ exists t2 r w2,
         GetNextPeer w1 = (t2, Ok r w2)
         /\ match r with
            | Some q =>
                exists b, backends (serverPool w) !! q = Some b
                  /\ net (dials w + q)%nat (URL_Host (URL b)) 2 = true
            | None =>
                forall i b, backends (serverPool w) !! i = Some b ->
                  net (dials w + i)%nat (URL_Host (URL b)) 2 = false
            end.
Proof.
  intros Hready. pose proof (HealthCheck_run net w) as Hpass. cbn zeta in Hpass.
  eexists _, _. split; [exact Hpass |].
  match goal with |- context [GetNextPeer ?x] => set (w1 := x) end.
  assert (Hready1 : ready w1).
  { apply (ready_same_size w); [exact Hready | apply Hready | apply length_imap]. }
  destruct (GetNextPeer_ready w1 Hready1) as (t2 & r & w2 & Hrun & _ & _ & Hr).
  exists t2, r, w2. split; [exact Hrun |].
  destruct r as [q |].
  - destruct Hr as [Hq _]. unfold alive_at, w1 in Hq. cbn [serverPool backends] in Hq.
    rewrite list_lookup_imap in Hq.
    destruct (backends (serverPool w) !! q) as [b |]; [| discriminate Hq].
    exists b. split; [reflexivity |]. cbn in Hq. injection Hq as Hq. exact Hq.
  - intros i b Hb.
    assert (Hin : with_Alive b (verdict net (dials w + i) b) ∈ backends (serverPool w1)).
    { apply list_elem_of_lookup. exists i. unfold w1. cbn [serverPool backends].
      rewrite list_lookup_imap, Hb. reflexivity. }
    exact (Hr _ Hin).
Qed.

Lemma after_pass_only_probed_alive_witness :
  let net := fun (d : nat) (host : string) (timeout_s : Z) =>
               negb (String.eqb host "b:3032") in
  let w := Demo.world [Demo.A; Demo.B; Demo.C] 0 in
  exists w1 t2 r w2,
    final (HealthCheck net w) = Some w1
    /\ GetNextPeer w1 = (t2, Ok r w2)
    /\ r = Some 2%nat.
Proof.
  intros net w.
  destruct (after_pass_only_probed_alive net w) as (t1 & w1 & Hpass & t2 & r & w2 & Hrun & _).
  - split; [concrete_wf | unfold len; cbn; lia].
  - exists w1, t2, r, w2. split; [rewrite Hpass; reflexivity |]. split; [exact Hrun |].
    vm_compute in Hpass. injection Hpass as _ <-.
    vm_compute in Hrun. injection Hrun as _ <- _. reflexivity.
Defined.

(** ** Where a failed request goes *)

Lemma snoc_ServeHTTP_inv (t t' : list Event) p r e :
  t ++ [EvServeHTTP p r] = t' ++ [e] -> e = EvServeHTTP p r.
Proof. intros H. apply app_inj_tail in H as [_ H]. congruence. Qed.

(** X12.  When a delivery fails with at most 3 retries and the failing
    peer is the first backend registered under its URL, the handler marks
    that peer dead, and if the request is then handed to a proxy at all, it
    is the proxy of another backend, one that is alive. *)
Theorem reroute_goes_elsewhere (serverUrl : url_URL) (proxy : httputil_ReverseProxy)
    (r : Request) (w : World) (i : nat) (b : Backend)
    (t : list Event) (p' : httputil_ReverseProxy) (r' : Request) (o : Outcome unit) :
  ready w ->
  GetRetryFromContext r <= 3 ->
  backends (serverPool w) !! i = Some b -> same_url serverUrl b ->
  (forall j b', (j < i)%nat -> backends (serverPool w) !! j = Some b' ->
                ~ same_url serverUrl b') ->
  ErrorHandler serverUrl proxy r w = (t ++ [EvServeHTTP p' r'], o) ->
  exists j bj w',
    j <> i
    /\ backends (serverPool w) !! j = Some bj
    /\ Alive bj = true
    /\ p' = ReverseProxy bj
    /\ o = Ok tt w'
    /\ alive_at (serverPool w') i = Some false.
Proof.
  intros Hready Hle Hb Hsame Hfirst Hrun.
  rewrite (ErrorHandler_reroute _ _ _ _ Hle) in Hrun. unfold bind in Hrun.
  rewrite (MarkBackendStatus_at serverUrl false w i b Hb Hsame Hfirst) in Hrun.
  set (w1 := set_backends w _) in Hrun.
  assert (Hdead : alive_at (serverPool w1) i = Some false).
  { unfold alive_at, w1, set_backends. cbn [serverPool backends].
    rewrite list_lookup_insert_eq by (eapply lookup_lt_Some, Hb). reflexivity. }
  assert (Hready1 : ready w1).
  { apply (ready_same_size w); [exact Hready | apply Hready |].
    unfold w1, set_backends. cbn. apply length_insert. }
  rewrite lb_unfold in Hrun.
  destruct (GetAttemptsFromContext (reroute_request r) >? 3).
  { injection Hrun as Ht _. symmetry in Ht.
    change (t ++ [EvServeHTTP p' r'] = [EvSetAlive i false] ++ [EvHttpError
              "Service not available" StatusServiceUnavailable]) in Ht.
    apply snoc_ServeHTTP_inv in Ht. discriminate Ht. }
  destruct (GetNextPeer_ready w1 Hready1) as (tg & q & w2 & HG & _ & Hbs & Hq).
  rewrite HG in Hrun. destruct q as [q |].
  - destruct Hq as [Hq _].
    assert (Hne : q <> i) by (intros ->; congruence).
    unfold alive_at in Hq. rewrite <- Hbs in Hq.
    destruct (backends (serverPool w2) !! q) as [bq |] eqn:Hbq; [| discriminate Hq].
    pose proof (f_equal fst Hrun) as Ht. pose proof (f_equal snd Hrun) as Ho.
    cbn [fst snd] in Ht, Ho. subst o. rewrite app_assoc in Ht. symmetry in Ht.
    apply snoc_ServeHTTP_inv in Ht. injection Ht as <- _.
    exists q, bq, w2. split; [exact Hne |].
    split.
    { rewrite Hbs in Hbq. unfold w1, set_backends in Hbq. cbn [serverPool backends] in Hbq.
      rewrite list_lookup_insert_ne in Hbq by congruence. exact Hbq. }
    split; [cbn in Hq; congruence |]. split; [reflexivity |]. split; [reflexivity |].
    unfold alive_at in Hdead. rewrite <- Hbs in Hdead. exact Hdead.
  - pose proof (f_equal fst Hrun) as Ht. cbn [fst] in Ht.
    rewrite app_assoc in Ht. symmetry in Ht.
    apply snoc_ServeHTTP_inv in Ht. discriminate Ht.
Qed.

Lemma reroute_goes_elsewhere_witness :
  let w := Demo.world [Demo.A; Demo.B; Demo.C] 0 in
  exists j bj w',
    j <> 1%nat
    /\ backends (serverPool w) !! j = Some bj
    /\ Alive bj = true
    /\ ReverseProxy Demo.C = ReverseProxy bj
    /\ Ok tt (Demo.world [Demo.A; Demo.backend 1 "b:3032" false; Demo.C] 2) = Ok tt w'
    /\ alive_at (serverPool w') 1 = Some false.
Proof.
  intros w.
  apply (reroute_goes_elsewhere (URL Demo.B) (ReverseProxy Demo.B) Demo.fresh w 1 Demo.B
           [EvSetAlive 1 false; EvAtomicAdd 1; EvIsAlive 1 false; EvIsAlive 2 true;
            EvAtomicStore 2]
           (ReverseProxy Demo.C) (reroute_request Demo.fresh)).
  - split; [concrete_wf | unfold len; cbn; lia].
  - cbn. lia.
  - reflexivity.
  - reflexivity.
  - intros [| j] b' Hj Hb'; [| lia]. injection Hb' as <-. unfold same_url. cbn.
    discriminate.
  - reflexivity.
Defined.

(** X13.  When two backends are registered under the same URL, a failure
    of the later one marks the earlier one dead and leaves the failing
    backend's own flag as it was: [MarkBackendStatus] stops at the first
    backend whose URL matches. *)
Theorem duplicate_url_shields_peer (r : Request) (w : World) (i j : nat)
    (bi bj : Backend) (t : list Event) (w' : World) :
  GetRetryFromContext r <= 3 ->
  i <> j ->
  backends (serverPool w) !! i = Some bi ->
  backends (serverPool w) !! j = Some bj ->
  same_url (URL bj) bi ->
  (forall k b', (k < i)%nat -> backends (serverPool w) !! k = Some b' ->
                ~ same_url (URL bj) b') ->
  ErrorHandler (URL bj) (ReverseProxy bj) r w = (t, Ok tt w') ->
  alive_at (serverPool w') j = Some (Alive bj)
  /\ alive_at (serverPool w') i = Some false.
Proof.
  intros Hle Hne Hbi Hbj Hsame Hfirst Hrun.
  rewrite (ErrorHandler_reroute _ _ _ _ Hle) in Hrun. unfold bind in Hrun.
  rewrite (MarkBackendStatus_at (URL bj) false w i bi Hbi Hsame Hfirst) in Hrun.
  set (w1 := set_backends w _) in Hrun.
  destruct (lb (reroute_request r) w1) as [t2 o2] eqn:Hlb.
  injection Hrun as _ ->. apply lb_Ok in Hlb as [Hbs _].
  unfold alive_at. rewrite Hbs. unfold w1, set_backends. cbn [serverPool backends].
  rewrite list_lookup_insert_ne by exact Hne.
  rewrite list_lookup_insert_eq by (eapply lookup_lt_Some, Hbi).
  rewrite Hbj. split; reflexivity.
Qed.

Lemma duplicate_url_shields_peer_witness :
  let twin := Demo.backend 1 "a:3031" true in
  let w := Demo.world [Demo.backend 0 "a:3031" true; twin; Demo.C] 0 in
  exists t w',
    ErrorHandler (URL twin) (ReverseProxy twin) Demo.fresh w = (t, Ok tt w')
    /\ alive_at (serverPool w') 1 = Some true
    /\ alive_at (serverPool w') 0 = Some false.
Proof.
  intros twin w.
  destruct (ErrorHandler (URL twin) (ReverseProxy twin) Demo.fresh w)
    as [t [[] w' | msg]] eqn:Hrun.
  - exists t, w'. split; [reflexivity |].
    apply (duplicate_url_shields_peer Demo.fresh w 0 1
             (Demo.backend 0 "a:3031" true) twin t w').
    + cbn. lia.
    + discriminate.
    + reflexivity.
    + reflexivity.
    + reflexivity.
    + intros k b' Hk. lia.
    + exact Hrun.
  - vm_compute in Hrun. discriminate Hrun.
Defined.

(** ** The counters carried by a request *)

(** X14.  The two counters of a request are read independently, and each
    reads 0 when nothing is attached under its key or when what is attached
    is not an [int]; the value attached last is the one read, and attaching
    one counter leaves the other as it was. *)
Theorem counters_on_context (r : Request) (x : Z) (v : any) (tag : string) :
  (Value (Ctx r) (AInt Retry) = None -> GetRetryFromContext r = 0)
  /\ (Value (Ctx r) (AInt Attempt) = None -> GetAttemptsFromContext r = 0)
  /\ GetRetryFromContext
       (WithContext r (WithValue (Ctx r) (AInt Retry) (AOther tag))) = 0
  /\ GetAttemptsFromContext
       (WithContext r (WithValue (Ctx r) (AInt Attempt) (AOther tag))) = 0
  /\ GetRetryFromContext (WithContext r (WithValue (Ctx r) (AInt Retry) (AInt x))) = x
  /\ GetAttemptsFromContext (WithContext r (WithValue (Ctx r) (AInt Attempt) (AInt x))) = x
  /\ GetRetryFromContext (WithContext r (WithValue (Ctx r) (AInt Attempt) v))
     = GetRetryFromContext r
  /\ GetAttemptsFromContext (WithContext r (WithValue (Ctx r) (AInt Retry) v))
     = GetAttemptsFromContext r
  /\ GetRetryFromContext (WithContext r (WithValue (Ctx r) (AOther tag) v))
     = GetRetryFromContext r
  /\ GetAttemptsFromContext (WithContext r (WithValue (Ctx r) (AOther tag) v))
     = GetAttemptsFromContext r.
Proof.
  repeat split; try reflexivity.
  - intros H. unfold GetRetryFromContext. rewrite H. reflexivity.
  - intros H. unfold GetAttemptsFromContext. rewrite H. reflexivity.
Qed.

Lemma counters_on_context_witness :
  GetRetryFromContext Demo.fresh = 0 /\ GetAttemptsFromContext Demo.fresh = 0.
Proof.
  destruct (counters_on_context Demo.fresh 0 (AInt 0) "") as (Hr & Ha & _).
  split; [apply Hr | apply Ha]; reflexivity.
Defined.


(** ** The prober over time *)

Lemma ticks_in_app t1 t2 : ticks_in (t1 ++ t2) = (ticks_in t1 + ticks_in t2)%nat.
Proof. unfold ticks_in. rewrite omap_app, length_app. reflexivity. Qed.

Lemma dials_in_app t1 t2 : dials_in (t1 ++ t2) = (dials_in t1 + dials_in t2)%nat.
Proof. unfold dials_in. rewrite omap_app, length_app. reflexivity. Qed.

Lemma pass_counts (l : list Backend) : forall f : nat -> Backend -> list Event,
  (forall i b, dials_in (f i b) = 1%nat /\ ticks_in (f i b) = 0%nat) ->
  dials_in (concat (imap f l)) = length l /\ ticks_in (concat (imap f l)) = 0%nat.
Proof.
  induction l as [| b l IH]; intros f Hf; [split; reflexivity |].
  cbn [imap concat length]. rewrite dials_in_app, ticks_in_app.
  destruct (Hf 0%nat b) as [-> ->].
  destruct (IH (f ∘ S)) as [-> ->]; [intros i x; apply Hf |]. split; reflexivity.
Qed.

Section ProberOverTime.

Variable net : nat -> string -> Z -> bool.

Lemma HealthCheck_counts w :
  dials_in (fst (HealthCheck net w)) = length (backends (serverPool w))
  /\ ticks_in (fst (HealthCheck net w)) = 0%nat.
Proof.
  pose proof (HealthCheck_run net w) as Hrun. cbn zeta in Hrun. rewrite Hrun.
  cbn [fst]. apply pass_counts. intros i b. split; reflexivity.
Qed.

Lemma healthCheck_ticks_run n : forall w,
  let bs := backends (serverPool w) in
  exists t w',
    healthCheck_ticks net n w = (t, Ok tt w')
    /\ ticks_in t = n
    /\ dials_in t = (n * length bs)%nat
    /\ dials w' = (dials w + n * length bs)%nat
    /\ currentIndex (serverPool w') = currentIndex (serverPool w)
    /\ length (backends (serverPool w')) = length bs
    /\ forall i b, bs !! i = Some b ->
         backends (serverPool w') !! i
         = Some match n with
                | O => b
                | S m => with_Alive b (net (dials w + m * length bs + i)%nat
                                           (URL_Host (URL b)) 2)
                end.
Proof.
  induction n as [| n IH]; intros w bs.
  - exists [], w. cbn. repeat split; try reflexivity; try lia. auto.
  - cbn [healthCheck_ticks]. unfold bind at 1, emit.
    pose proof (HealthCheck_run net w) as Hpass. cbn zeta in Hpass. fold bs in Hpass.
    destruct (HealthCheck_counts w) as [Hd Ht]. rewrite Hpass in Hd, Ht. cbn [fst] in Hd, Ht.
    unfold bind at 1. rewrite Hpass.
    match goal with |- context [healthCheck_ticks net n ?x] => set (w1 := x) end.
    destruct (IH w1) as (t & w' & Hrun & Htk & Hdl & Hdials & Hcur & Hlen & Hflags).
    rewrite Hrun. cbn [fst snd app].
    assert (Hlen1 : length (backends (serverPool w1)) = length bs) by apply length_imap.
    rewrite Hlen1 in Hdl, Hdials, Hlen.
    eexists _, _. split; [reflexivity |].
    split.
    { change (EvTick :: ?l) with ([EvTick] ++ l).
      rewrite !ticks_in_app, Ht, Htk. reflexivity. }
    split.
    { change (EvTick :: ?l) with ([EvTick] ++ l).
      rewrite !dials_in_app, Hd, Hdl. change (dials_in [EvTick]) with 0%nat.
      fold bs. lia. }
    split; [rewrite Hdials; unfold w1; cbn [dials]; fold bs; lia |].
    split; [rewrite Hcur; reflexivity |]. split; [exact Hlen |].
    intros i b Hb.
    assert (Hb1 : backends (serverPool w1) !! i
                  = Some (with_Alive b (verdict net (dials w + i) b))).
    { unfold w1. cbn [serverPool backends]. rewrite list_lookup_imap. fold bs.
      rewrite Hb. reflexivity. }
    rewrite (Hflags i _ Hb1). f_equal. rewrite Hlen1.
    destruct n as [| m]; unfold verdict, with_Alive; cbn [URL Alive ReverseProxy].
    + do 2 f_equal. lia.
    + do 2 f_equal. unfold w1. cbn [dials]. fold bs. lia.
Qed.

(** X15.  Observed up to its [ticks]-th tick, [healthCheck] has run one more
    pass than it has seen ticks and has dialled every backend once per pass;
    each alive flag is then the outcome of the backend's probe in the last
    pass alone, whatever the earlier passes and the flag before said.  The
    cursor is never touched. *)
Theorem healthCheck_reprobes (ticks : nat) (w : World) :
  let bs := backends (serverPool w) in
  exists t w',
    healthCheck net ticks w = (t, Ok tt w')
    /\ ticks_in t = ticks
    /\ dials_in t = (S ticks * length bs)%nat
    /\ currentIndex (serverPool w') = currentIndex (serverPool w)
    /\ forall i b, bs !! i = Some b ->
         let up := net (dials w + ticks * length bs + i)%nat (URL_Host (URL b)) 2 in
         backends (serverPool w') !! i
         = Some {| URL := URL b; Alive := up; ReverseProxy := ReverseProxy b |}
         /\ alive_at (serverPool w') i = Some up.
Proof.
  intros bs. unfold healthCheck. unfold bind at 1.
  pose proof (HealthCheck_run net w) as Hpass. cbn zeta in Hpass. fold bs in Hpass.
  destruct (HealthCheck_counts w) as [Hd Ht]. rewrite Hpass in Hd, Ht. cbn [fst] in Hd, Ht.
  rewrite Hpass.
  match goal with |- context [healthCheck_ticks net ticks ?x] => set (w1 := x) end.
  destruct (healthCheck_ticks_run ticks w1)
    as (t & w' & Hrun & Htk & Hdl & _ & Hcur & _ & Hflags).
  assert (Hlen1 : length (backends (serverPool w1)) = length bs) by apply length_imap.
  rewrite Hlen1 in Hdl. rewrite Hrun.
  eexists _, _. split; [reflexivity |].
  split; [rewrite ticks_in_app, Ht, Htk; reflexivity |].
  split; [rewrite dials_in_app, Hd, Hdl; fold bs; lia |].
  split; [rewrite Hcur; reflexivity |].
  intros i b Hb.
  assert (Hb1 : backends (serverPool w1) !! i
                = Some (with_Alive b (verdict net (dials w + i) b))).
  { unfold w1. cbn [serverPool backends]. rewrite list_lookup_imap. fold bs.
    rewrite Hb. reflexivity. }
  assert (Hflag : backends (serverPool w') !! i
                  = Some {| URL := URL b;
                            Alive := net (dials w + ticks * length bs + i)%nat
                                         (URL_Host (URL b)) 2;
                            ReverseProxy := ReverseProxy b |}).
  { rewrite (Hflags i _ Hb1). f_equal. rewrite Hlen1.
    destruct ticks as [| m]; unfold verdict, with_Alive; cbn [URL Alive ReverseProxy].
    - do 2 f_equal. lia.
    - do 2 f_equal. unfold w1. cbn [dials]. fold bs. lia. }
  cbn zeta. split; [exact Hflag |]. unfold alive_at. rewrite Hflag. reflexivity.
Qed.

End ProberOverTime.

Lemma healthCheck_reprobes_witness :
  let w := Demo.world [Demo.A; Demo.B; Demo.C] 0 in
  exists t w',
    healthCheck (fun d _ _ => Nat.ltb d 3) 1 w = (t, Ok tt w')
    /\ ticks_in t = 1%nat /\ dials_in t = 6%nat
    /\ alive_at (serverPool w) 1 = Some true
    /\ alive_at (serverPool w') 1 = Some false
    /\ backends (serverPool w') !! 0%nat = Some Demo.A.
Proof.
  intros w.
  destruct (healthCheck_reprobes (fun d _ _ => Nat.ltb d 3) 1 w)
    as (t & w' & Hrun & Htk & Hdl & _ & Hflags).
  exists t, w'. split; [exact Hrun |]. split; [exact Htk |]. split; [exact Hdl |].
  split; [reflexivity |].
  split; [exact (proj2 (Hflags 1%nat Demo.B eq_refl)) |].
  exact (proj1 (Hflags 0%nat Demo.A eq_refl)).
Defined.



(** ** Every request is answered *)

Lemma serves_in_app t1 t2 : serves_in (t1 ++ t2) = (serves_in t1 + serves_in t2)%nat.
Proof. unfold serves_in. rewrite omap_app, length_app. reflexivity. Qed.

Lemma serves_in_pool_events t :
  Forall (fun e => is_pool_event e = true) t -> serves_in t = 0%nat.
Proof.
  induction 1 as [| e t He _ IH]; [reflexivity |].
  change (e :: t) with ([e] ++ t). rewrite serves_in_app, IH.
  destruct e; try reflexivity; discriminate He.
Qed.

Lemma lb_settled r w : ready w -> settled (lb r w).
Proof.
  intros Hready. unfold settled. rewrite lb_unfold.
  destruct (GetAttemptsFromContext r >? 3).
  { exists [], (EvHttpError "Service not available" StatusServiceUnavailable), w.
    split; [reflexivity |]. split; [exact Hready |]. left. eauto. }
  pose proof (GetNextPeer_pool_events w) as Hpool.
  destruct (GetNextPeer_ready w Hready) as (t & q & w' & HG & Hr' & Hbs & Hq).
  rewrite HG in Hpool |- *. cbn [fst] in Hpool.
  pose proof (serves_in_pool_events t Hpool) as Hz.
  destruct q as [q |].
  - destruct Hq as [Hq _]. unfold alive_at in Hq. rewrite <- Hbs in Hq.
    destruct (backends (serverPool w') !! q) as [b |]; [| discriminate Hq].
    eexists _, _, _. split; [reflexivity |]. split; [exact Hr' |]. right.
    eexists _, _. split; [reflexivity |]. rewrite serves_in_app, Hz. reflexivity.
  - eexists _, _, _. split; [reflexivity |]. split; [exact Hr' |]. left.
    eexists. split; [reflexivity |]. rewrite serves_in_app, Hz. reflexivity.
Qed.

Lemma handler_settled p r w :
  GetRetryFromContext r <= 3 -> ready w -> settled (proxy_ErrorHandler p r w).
Proof.
  intros Hle Hready. unfold proxy_ErrorHandler.
  rewrite (ErrorHandler_reroute _ _ _ _ Hle). unfold bind.
  pose proof (MarkBackendStatus_pool_events (rp_target p) false w) as Hpool.
  destruct (MarkBackendStatus_ready (rp_target p) false w Hready) as (t1 & w1 & HM & H1).
  rewrite HM in Hpool |- *. cbn [fst] in Hpool.
  destruct (lb_settled (reroute_request r) w1 H1) as (t2 & e & w2 & Hlb & H2 & He).
  rewrite Hlb. exists (t1 ++ t2), e, w2. rewrite <- app_assoc.
  split; [reflexivity |]. split; [exact H2 |].
  rewrite serves_in_app, (serves_in_pool_events t1 Hpool). exact He.
Qed.

(** What a settled run becomes once its failures have been followed. *)
Lemma deliver_answers fails n : forall k x,
  settled x -> run_ok (4 - Z.of_nat n) x ->
  exists t e w',
    deliver n fails k x = (t ++ [e], Ok tt w') /\ ready w'
    /\ ((exists msg, e = EvHttpError msg StatusServiceUnavailable)
        \/ (exists p r, e = EvServeHTTP p r
                        /\ fails (k + serves_in (t ++ [e]) - 1)%nat = false)).
Proof.
  induction n as [| n IH]; intros k x (t & e & w' & -> & Hready & He) [Hq Hf];
    cbn [fst snd] in *.
  - exists t, e, w'. cbn [deliver]. split; [reflexivity |]. split; [exact Hready |].
    destruct He as [(msg & -> & _) | (p & r & -> & _)]; [left; eauto |].
    specialize (Hf p r (forwarded_snoc t _)). lia.
  - cbn [deliver fst snd]. rewrite forwarded_snoc.
    destruct He as [(msg & -> & _) | (p & r & -> & Hone)].
    { exists t, (EvHttpError msg StatusServiceUnavailable), w'.
      split; [reflexivity |]. split; [exact Hready |]. left. eauto. }
    destruct (Hf p r (forwarded_snoc t _)) as (Hret & Hatt & Hlow).
    destruct (fails k) eqn:Hk.
    + pose proof (handler_run_ok p r w' Hret Hatt) as Hy.
      apply (run_ok_weaken (4 - Z.of_nat n)) in Hy; [| lia].
      pose proof (handler_settled p r w' ltac:(lia) Hready) as Hs.
      destruct (IH (S k) _ Hs Hy) as (ty & ey & wy & Hrun & Hry & Hey).
      rewrite Hrun. cbn [fst snd].
      exists ((t ++ [EvServeHTTP p r]) ++ ty), ey, wy.
      rewrite (app_assoc (t ++ [EvServeHTTP p r]) ty [ey]).
      split; [reflexivity |]. split; [exact Hry |].
      destruct Hey as [Hey | (p2 & r2 & -> & Hfk)]; [left; exact Hey |].
      right. exists p2, r2. split; [reflexivity |].
      assert (Hcount : serves_in ((t ++ [EvServeHTTP p r]) ++ ty ++ [EvServeHTTP p2 r2])
                       = (1 + serves_in (ty ++ [EvServeHTTP p2 r2]))%nat).
      { rewrite serves_in_app, Hone. reflexivity. }
      rewrite <- (app_assoc (t ++ [EvServeHTTP p r]) ty), Hcount.
      replace (k + (1 + serves_in (ty ++ [EvServeHTTP p2 r2])) - 1)%nat
        with (S k + serves_in (ty ++ [EvServeHTTP p2 r2]) - 1)%nat by lia.
      exact Hfk.
    + exists t, (EvServeHTTP p r), w'. split; [reflexivity |].
      split; [exact Hready |]. right. exists p, r. split; [reflexivity |].
      rewrite Hone. replace (k + 1 - 1)%nat with k by lia. exact Hk.
Qed.

(** X17.  On a pool that is not empty, a request that arrives without
    counters always gets an answer, however deliveries fail: the run does
    not panic, and it ends either with the 503 response or with the request
    handed to a proxy whose delivery did not fail. *)
Theorem serve_answers (fails : nat -> bool) (r : Request) (w : World) :
  ready w ->
  GetRetryFromContext r = 0 -> GetAttemptsFromContext r = 0 ->
  exists t e w',
    serve 4 fails r w = (t ++ [e], Ok tt w') /\ ready w'
    /\ ((exists msg, e = EvHttpError msg StatusServiceUnavailable)
        \/ (exists p r', e = EvServeHTTP p r'
                         /\ fails (serves_in (t ++ [e]) - 1)%nat = false)).
Proof.
  intros Hready Hret Hatt. unfold serve.
  apply (deliver_answers fails 4 0 (lb r w)).
  - apply lb_settled, Hready.
  - apply (run_ok_weaken _ (GetAttemptsFromContext r)); [cbn; lia |].
    apply lb_run_ok; [exact Hret | lia].
Qed.

Lemma serve_answers_witness :
  let w := Demo.world [Demo.A; Demo.B; Demo.C] 0 in
  let fails := fun k => Nat.eqb k 0 in
  exists t e w',
    serve 4 fails Demo.fresh w = (t ++ [e], Ok tt w') /\ ready w'
    /\ ((exists msg, e = EvHttpError msg StatusServiceUnavailable)
        \/ (exists p r', e = EvServeHTTP p r'
                         /\ fails (serves_in (t ++ [e]) - 1)%nat = false)).
Proof.
  intros w fails. apply (serve_answers fails Demo.fresh w).
  - split; [concrete_wf | unfold len; cbn; lia].
  - reflexivity.
  - reflexivity.
Defined.

Lemma serve_fresh_request_witness :
  let w := Demo.world [Demo.A; Demo.B; Demo.C] 0 in
  serve 9 (fun _ => true) Demo.fresh w = serve 4 (fun _ => true) Demo.fresh w
  /\ Forall quiet (fst (serve 4 (fun _ => true) Demo.fresh w)).
Proof.
  intros w. apply (serve_fresh_request (fun _ => true) Demo.fresh w 5); reflexivity.
Defined.

(** ** The retry branch *)

Lemma sleeps_in_app t1 t2 : sleeps_in (t1 ++ t2) = (sleeps_in t1 + sleeps_in t2)%nat.
Proof. unfold sleeps_in. rewrite omap_app, length_app. reflexivity. Qed.

Lemma handler_retries p r w :
  GetRetryFromContext r > 3 ->
  proxy_ErrorHandler p r w = ([EvSleep 10; EvServeHTTP p (retry_request r)], Ok tt w).
Proof.
  intros Hgt. unfold proxy_ErrorHandler, ErrorHandler. rewrite Z.gtb_ltb.
  destruct (Z.ltb_spec 3 (GetRetryFromContext r)) as [_ | Hle]; [reflexivity | lia].
Qed.

Lemma retry_loop n : forall k p r w t,
  GetRetryFromContext r > 3 ->
  GetRetryFromContext r + Z.of_nat n <= Int.MaxInt ->
  Forall (retry_only p) t ->
  exists t' r',
    deliver n (fun _ => true) k (t ++ [EvServeHTTP p r], Ok tt w)
    = (t' ++ [EvServeHTTP p r'], Ok tt w)
    /\ Forall (retry_only p) t'
    /\ sleeps_in (t' ++ [EvServeHTTP p r']) = (sleeps_in t + n)%nat
    /\ GetRetryFromContext r' = GetRetryFromContext r + Z.of_nat n.
Proof.
  induction n as [| n IH]; intros k p r w t Hgt Hfit Ht.
  - exists t, r. cbn [deliver]. split; [reflexivity |]. split; [exact Ht |].
    rewrite sleeps_in_app. cbn. split; lia.
  - cbn [deliver fst snd]. rewrite forwarded_snoc.
    rewrite (handler_retries p r w Hgt).
    assert (Hnext : GetRetryFromContext (retry_request r) = GetRetryFromContext r + 1).
    { unfold retry_request. rewrite GetRetry_WithValue_Retry.
      apply IntFacts.int_add_small. unfold Int.is_int.
      rewrite IntFacts.MinInt_eq. lia. }
    destruct (IH (S k) p (retry_request r) w [EvSleep 10] ltac:(lia) ltac:(lia))
      as (t' & r' & Hrun & Ht' & Hsl & Hr').
    { repeat constructor. }
    change ([EvSleep 10; EvServeHTTP p (retry_request r)])
      with ([EvSleep 10] ++ [EvServeHTTP p (retry_request r)]).
    rewrite Hrun. cbn [fst snd].
    exists ((t ++ [EvServeHTTP p r]) ++ t'), r'.
    rewrite (app_assoc (t ++ [EvServeHTTP p r]) t').
    split; [reflexivity |].
    split.
    { apply Forall_app. split; [| exact Ht'].
      apply Forall_app. split; [exact Ht | repeat constructor]. }
    split.
    { rewrite <- (app_assoc (t ++ [EvServeHTTP p r]) t'), sleeps_in_app, Hsl.
      rewrite sleeps_in_app. cbn. lia. }
    lia.
Qed.

(** X18.  The same-peer retry branch has no ceiling.  Once a request carries
    more than 3 retries, every further failure on its peer only waits 10 ms
    and hands the request to the same proxy again with one more retry: the
    peer is not marked dead, the request is not rerouted, no response is
    written and the pool is left untouched, for as many failures as the
    counter has room. *)
Theorem retry_branch_never_gives_up (n k : nat) (p : httputil_ReverseProxy)
    (r : Request) (w : World) :
  GetRetryFromContext r > 3 ->
  GetRetryFromContext r + Z.of_nat n <= Int.MaxInt ->
  exists t r',
    deliver n (fun _ => true) k ([EvServeHTTP p r], Ok tt w)
    = (t ++ [EvServeHTTP p r'], Ok tt w)
    /\ Forall (retry_only p) t
    /\ sleeps_in (t ++ [EvServeHTTP p r']) = n
    /\ GetRetryFromContext r' = GetRetryFromContext r + Z.of_nat n.
Proof.
  intros Hgt Hfit.
  destruct (retry_loop n k p r w [] Hgt Hfit ltac:(constructor))
    as (t & r' & Hrun & Ht & Hsl & Hr').
  exists t, r'. split; [exact Hrun |]. split; [exact Ht |]. split; [exact Hsl | exact Hr'].
Qed.

Lemma retry_branch_never_gives_up_witness :
  let w := Demo.world [Demo.A; Demo.B; Demo.C] 0 in
  exists t r',
    deliver 3 (fun _ => true) 0 ([EvServeHTTP (ReverseProxy Demo.B) (Demo.retried 4)], Ok tt w)
    = (t ++ [EvServeHTTP (ReverseProxy Demo.B) r'], Ok tt w)
    /\ sleeps_in (t ++ [EvServeHTTP (ReverseProxy Demo.B) r']) = 3%nat
    /\ GetRetryFromContext r' = 7.
Proof.
  intros w.
  destruct (retry_branch_never_gives_up 3 0 (ReverseProxy Demo.B) (Demo.retried 4) w)
    as (t & r' & Hrun & _ & Hsl & Hr').
  - cbn. lia.
  - cbn. rewrite IntFacts.MaxInt_eq. lia.
  - exists t, r'. split; [exact Hrun |]. split; [exact Hsl | exact Hr'].
Defined.
